(** * kd-exsample-backend: the file store and the canvas store

    A shallow embedding of the Express application of the repository
    (the routes [POST /upload], [GET /file/:fileId], [POST /canvas],
    [GET /canvas] and [GET /canvas/:id]) together with the parts of the
    Node.js runtime the routes call: [path.join], [path.extname],
    [path.parse], the synchronous [fs] calls, object spread and
    [Array.prototype.sort].

    Conventions.
    - A JavaScript string is a [string]; the contents of a file are a
      [string] too (one character per byte).
    - A JavaScript number is a binary64 [float].
    - An object is a finite map from property names to values
      ([gmap string json]): two objects with the same properties are equal,
      whatever the order in which the properties were created.
    - The file system is a list of entries in the order in which the
      operating system enumerates them.
    - [uuidv4()], [new Date().toISOString()] and the place the operating
      system gives a new entry in its enumeration order are inputs of the
      operation that consumes them.
    - [JSON.parse], [JSON.stringify], the numeric coercion of strings and
      objects and [__dirname] are parameters of the development. *)

From Stdlib Require Import Ascii Floats.
From stdpp Require Import gmap strings list fin_maps pretty.

#[local] Set Warnings "-register-all".

(** ** JSON values *)

Inductive json : Type :=
| JNull
| JBool (b : bool)
| JNum (x : float)
| JStr (s : string)
| JArr (l : list json)
| JObj (m : gmap string json).

(** ** Strings *)

Definition bytes := string.

Definition chars (s : string) : list ascii := String.list_ascii_of_string s.
Definition of_chars (l : list ascii) : string := String.string_of_list_ascii l.

(** [s.startsWith(p)] *)
Fixpoint startsWith (s p : string) {struct p} : bool :=
  match p with
  | EmptyString => true
  | String c p' =>
      match s with
      | EmptyString => false
      | String d s' => bool_decide (c = d) && startsWith s' p'
      end
  end.

(** [s.endsWith(p)] *)
Definition endsWith (s p : string) : bool :=
  startsWith (String.rev s) (String.rev p).

(** [s.slice(from, to)] for [0 <= from] and [0 <= to]. *)
Definition slice (s : string) (from to : nat) : string :=
  String.substring from (to - from) s.

(** [s.split(sep)] for a one-character separator: never the empty list. *)
Fixpoint split (sep : ascii) (s : string) : list string :=
  match s with
  | EmptyString => [EmptyString]
  | String c s' =>
      if bool_decide (c = sep) then EmptyString :: split sep s'
      else match split sep s' with
           | [] => [String c EmptyString]
           | h :: t => String c h :: t
           end
  end.

(** ** The [path] module (POSIX flavour) *)

(** A path is kept resolved: the list of the segments of an absolute,
    normalized path, from the root down. *)
Definition path := list string.

(** One step of the normalization [path.join] applies to the segments it
    is given: empty segments and [.] are dropped, [..] removes the
    segment before it, and stays at the root when there is none. *)
Definition normalize_step (acc : path) (seg : string) : path :=
  if bool_decide (seg = "") then acc
  else if bool_decide (seg = ".") then acc
  else if bool_decide (seg = "..") then removelast acc
  else acc ++ [seg].

(** [path.join(dir, rel)] for an absolute, normalized [dir]. *)
Definition path_join (dir : path) (rel : string) : path :=
  fold_left normalize_step (split "/"%char rel) dir.

(** State of the backward scan shared by [path.extname] and [path.parse]:
    [None] stands for the initial [-1] of [startDot] and [end]. *)
Record scan_state := ScanState {
  startDot : option nat;
  startPart : nat;
  end_ : option nat;
  matchedSlash : bool;
  preDotState : Z
}.

Definition scan_init : scan_state :=
  ScanState None 0 None true 0.

(** The loop [for (i = path.length - 1; i >= start; --i)] of
    [path.extname] and [path.parse]. [r] holds the characters still to be
    visited, last one first, so that the character visited has index
    [start + length r']. The [break] is the branch that returns without
    a recursive call. *)
Fixpoint ext_scan (start : nat) (r : list ascii) (st : scan_state) : scan_state :=
  match r with
  | [] => st
  | code :: r' =>
      let i := start + length r' in
      if bool_decide (code = "/"%char) then
        if negb (matchedSlash st) then
          ScanState (startDot st) (i + 1) (end_ st) (matchedSlash st) (preDotState st)
        else ext_scan start r' st
      else
        let st1 :=
          match end_ st with
          | None => ScanState (startDot st) (startPart st) (Some (i + 1)) false (preDotState st)
          | Some _ => st
          end in
        let st2 :=
          if bool_decide (code = "."%char) then
            match startDot st1 with
            | None => ScanState (Some i) (startPart st1) (end_ st1) (matchedSlash st1) (preDotState st1)
            | Some _ =>
                if bool_decide (preDotState st1 ≠ 1%Z)
                then ScanState (startDot st1) (startPart st1) (end_ st1) (matchedSlash st1) 1
                else st1
            end
          else
            match startDot st1 with
            | Some _ => ScanState (startDot st1) (startPart st1) (end_ st1) (matchedSlash st1) (-1)
            | None => st1
            end in
        ext_scan start r' st2
  end.

(** The test after the loop: [Some (startDot, end)] when the last portion
    of the path has an extension, [None] when it has none. *)
Definition scan_ext (st : scan_state) : option (nat * nat) :=
  match startDot st, end_ st with
  | Some sd, Some e =>
      if bool_decide (preDotState st = 0%Z)
         || (bool_decide (preDotState st = 1%Z)
             && bool_decide (sd = e - 1) && bool_decide (sd = startPart st + 1))
      then None
      else Some (sd, e)
  | _, _ => None
  end.

(** [path.extname(p)] *)
Definition extname (p : string) : string :=
  match scan_ext (ext_scan 0 (reverse (chars p)) scan_init) with
  | Some (sd, e) => slice p sd e
  | None => ""
  end.

(** [path.parse(p).name] *)
Definition parse_name (p : string) : string :=
  match p with
  | EmptyString => ""
  | String c0 rest =>
      let isAbsolute := bool_decide (c0 = "/"%char) in
      let st :=
        if isAbsolute then ext_scan 1 (reverse (chars rest)) scan_init
        else ext_scan 0 (reverse (chars p)) scan_init in
      match end_ st with
      | None => ""
      | Some e =>
          let start := if bool_decide (startPart st = 0) && isAbsolute then 1 else startPart st in
          match scan_ext st with
          | None => slice p start e
          | Some (sd, _) => slice p start sd
          end
      end
  end.

(** The extension in the words of the specification: the substring from
    the last [.] of the name, dot included, and nothing when the name has
    no [.]. *)
Fixpoint spec_extension (name : string) : string :=
  match name with
  | EmptyString => ""
  | String c name' =>
      if bool_decide (c = "."%char) && negb (existsb (λ d, bool_decide (d = "."%char)) (chars name'))
      then name
      else spec_extension name'
  end.

(** A plain segment: a name without separator that is not one of the
    segments [path.join] resolves. *)
Definition plain (seg : string) : Prop :=
  ("/"%char ∉ chars seg) ∧ seg ≠ "" ∧ seg ≠ "." ∧ seg ≠ "..".

(** What the scan has recorded in [preDotState] once it has visited the
    characters [a] that precede the last dot of a segment. *)
Definition pre_dot (a : list ascii) : Z :=
  match a with
  | [] => 0
  | c :: _ => if bool_decide (c = "."%char) then 1 else -1
  end.

(** The state of the scan inside the last segment of a path: [vis] is
    the part of the segment visited so far and [todo] the number of
    characters before it. *)
Definition seen (start : nat) (st : scan_state) (todo : nat) (vis : list ascii) : Prop :=
  matchedSlash st = false
  ∧ end_ st = Some (start + todo + length vis)
  ∧ Forall (λ c, c ≠ "/"%char) vis
  ∧ ((startDot st = None ∧ Forall (λ c, c ≠ "."%char) vis ∧ preDotState st = 0%Z)
     ∨ (∃ a x, vis = a ++ "."%char :: x
               ∧ Forall (λ c, c ≠ "."%char) x
               ∧ startDot st = Some (start + todo + length a)
               ∧ preDotState st = pre_dot a)).

(** The shape of an extension: nothing, or a dot followed by characters
    that are neither a dot nor a separator. *)
Definition is_extension (e : string) : Prop :=
  e = "" ∨ ∃ x, e = String "."%char x
               ∧ Forall (λ c, c ≠ "."%char) (chars x)
               ∧ Forall (λ c, c ≠ "/"%char) (chars x).

(** ** Identifiers *)

Definition is_hex (c : ascii) : bool :=
  existsb (λ d, bool_decide (c = d)) (chars "0123456789abcdef").

(** The character a version 4 UUID may have at index [i]:
    [xxxxxxxx-xxxx-4xxx-yxxx-xxxxxxxxxxxx] with [y] one of 8, 9, a, b. *)
Definition uuid_char_ok (i : nat) (c : ascii) : bool :=
  if bool_decide (i = 8 ∨ i = 13 ∨ i = 18 ∨ i = 23) then bool_decide (c = "-"%char)
  else if bool_decide (i = 14) then bool_decide (c = "4"%char)
  else if bool_decide (i = 19) then existsb (λ d, bool_decide (c = d)) (chars "89ab")
  else is_hex c.

Fixpoint uuid_chars (i : nat) (l : list ascii) : bool :=
  match l with
  | [] => true
  | c :: l' => uuid_char_ok i c && uuid_chars (S i) l'
  end.

(** The strings [uuidv4()] returns. *)
Definition is_uuid (s : string) : bool :=
  bool_decide (length (chars s) = 36) && uuid_chars 0 (chars s).

(** ** The file system *)

Inductive node :=
| Dir (readable : bool)
| File (readable : bool) (content : bytes).

(** The entries of the file system with their resolved paths, in the
    order in which the operating system enumerates them. The root is not
    listed: it is a readable directory. *)
Definition fsys := list (path * node).

Fixpoint fs_lookup (fs : fsys) (p : path) : option node :=
  match fs with
  | [] => None
  | (q, n) :: fs' => if bool_decide (q = p) then Some n else fs_lookup fs' p
  end.

Definition stat (fs : fsys) (p : path) : option node :=
  if bool_decide (p = []) then Some (Dir true) else fs_lookup fs p.

(** [fs.existsSync(p)] *)
Definition existsSync (fs : fsys) (p : path) : bool :=
  match stat fs p with Some _ => true | None => false end.

Definition is_dir (fs : fsys) (p : path) : bool :=
  match stat fs p with Some (Dir _) => true | _ => false end.

Definition child_name (dir : path) (e : path * node) : option string :=
  match last e.1 with
  | Some name => if bool_decide (e.1 = dir ++ [name]) then Some name else None
  | None => None
  end.

(** [fs.readdirSync(dir)] and the listing [fs.readdir(dir, cb)] passes to
    its callback; [None] when the call fails. *)
Definition readdir (fs : fsys) (dir : path) : option (list string) :=
  match stat fs dir with
  | Some (Dir true) => Some (omap (child_name dir) fs)
  | _ => None
  end.

(** [fs.readFileSync(p, 'utf-8')]; [None] when the call throws. *)
Definition readFileSync (fs : fsys) (p : path) : option bytes :=
  match stat fs p with
  | Some (File true content) => Some content
  | _ => None
  end.

Definition insert_at {A} (pos : nat) (x : A) (l : list A) : list A :=
  take pos l ++ x :: drop pos l.

Definition set_content (p : path) (data : bytes) (e : path * node) : path * node :=
  match e with
  | (q, File r _) => if bool_decide (q = p) then (q, File r data) else e
  | _ => e
  end.

(** The longest name of a directory entry, in bytes ([NAME_MAX] of the
    POSIX file systems). *)
Definition NAME_MAX : nat := 255.

(** The names a file can be opened under: at most [NAME_MAX] bytes
    (else [ENAMETOOLONG]) and no NUL byte (else [ERR_INVALID_ARG_VALUE]). *)
Definition valid_name (name : string) : bool :=
  bool_decide (length (chars name) ≤ NAME_MAX)
  && forallb (λ c, negb (bool_decide (c = "000"%char))) (chars name).

Definition valid_path (p : path) : bool :=
  match last p with
  | Some name => valid_name name
  | None => true
  end.

(** Writing a whole file, as [fs.writeFileSync(p, data)] and the write
    stream of the upload middleware do: the name must be one the file
    system accepts; an existing file is replaced in place, a new one
    needs its directory and appears at place [pos] of the enumeration;
    [None] when the call fails. The process is taken to have the right
    to write and the space it needs. *)
Definition writeFile (fs : fsys) (pos : nat) (p : path) (data : bytes) : option fsys :=
  if valid_path p then
    match stat fs p with
    | Some (Dir _) => None
    | Some (File _ _) => Some (map (set_content p data) fs)
    | None =>
        if is_dir fs (removelast p) then Some (insert_at pos (p, File true data) fs)
        else None
    end
  else None.

(** [fs.mkdirSync(p, { recursive: true })], on the reversed path: the
    missing directories are created from the first existing ancestor
    down; [None] when the path or an ancestor is a file. *)
Fixpoint mkdir_rec (fs : fsys) (rp : list string) : option fsys :=
  match rp with
  | [] => Some fs
  | _ :: rp' =>
      match fs_lookup fs (reverse rp) with
      | Some (Dir _) => Some fs
      | Some (File _ _) => None
      | None =>
          match mkdir_rec fs rp' with
          | Some fs1 => Some (fs1 ++ [(reverse rp, Dir true)])
          | None => None
          end
      end
  end.

Definition mkdirSync (fs : fsys) (p : path) : option fsys := mkdir_rec fs (reverse p).

(** ** Objects, coercions and sorting *)

(** The own enumerable properties object spread copies. *)
Definition own_props (v : json) : gmap string json :=
  match v with
  | JObj m => m
  | JArr l => list_to_map (imap (λ i x, (pretty i, x)) l)
  | JStr s => list_to_map (imap (λ i c, (pretty i, JStr (String c ""))) (chars s))
  | _ => ∅
  end.

(** [{ ...target, ...source }]: the properties of [source] are defined on
    [target] and replace those of the same name. *)
Definition spread (target source : gmap string json) : gmap string json :=
  source ∪ target.

(** [v.createDate]: [None] is the TypeError of a property read on
    [null], [Some None] is [undefined]. *)
Definition get_createDate (v : json) : option (option json) :=
  match v with
  | JNull => None
  | JObj m => Some (m !! "createDate")
  | _ => Some None
  end.

(** ** A reader and a printer for a fragment of JSON

    [JSON.parse] and [JSON.stringify] are parameters of the development.
    To run it on concrete requests, this module gives a printer and a
    reader for the fragment of JSON without numbers and without escape
    sequences: the printer writes every number as [null] (what
    [JSON.stringify] does for the numbers JSON cannot write), the reader
    refuses numbers and backslashes. *)
Module MiniJSON.

Definition dq : ascii := "034"%char.

Definition join (sep : string) (l : list string) : string :=
  match l with
  | [] => ""
  | h :: t => foldl (λ acc s, acc +:+ sep +:+ s) h t
  end.

Definition quote (s : string) : string := String dq (s +:+ String dq "").

Fixpoint stringify (v : json) : string :=
  match v with
  | JNull => "null"
  | JBool true => "true"
  | JBool false => "false"
  | JNum _ => "null"
  | JStr s => quote s
  | JArr l => "[" +:+ join "," (map stringify l) +:+ "]"
  | JObj m =>
      "{" +:+ join "," (map (λ kv, quote kv.1 +:+ ":" +:+ kv.2)
                         (map_to_list (stringify <$> m))) +:+ "}"
  end.

Fixpoint skip_ws (s : string) : string :=
  match s with
  | String c s' => if Ascii.is_space c then skip_ws s' else s
  | EmptyString => s
  end.

Fixpoint drop_prefix (p s : string) : option string :=
  match p with
  | EmptyString => Some s
  | String c p' =>
      match s with
      | String d s' => if bool_decide (c = d) then drop_prefix p' s' else None
      | EmptyString => None
      end
  end.

(** The characters up to the closing quote, and what follows it. *)
Fixpoint read_string (s : string) : option (string * string) :=
  match s with
  | EmptyString => None
  | String c s' =>
      if bool_decide (c = dq) then Some ("", s')
      else if bool_decide (c = "\"%char) then None
      else match read_string s' with
           | Some (str, rest) => Some (String c str, rest)
           | None => None
           end
  end.

Section Composite.
Variable read_value : string → option (json * string).

(** After [[] and a first element: [, element]* []]. *)
Fixpoint read_elements (fuel : nat) (acc : list json) (s : string)
  : option (json * string) :=
  match fuel with
  | 0 => None
  | S fuel' =>
      match skip_ws s with
      | String "]" rest => Some (JArr (reverse acc), rest)
      | String "," rest =>
          match read_value rest with
          | Some (v, rest') => read_elements fuel' (v :: acc) rest'
          | None => None
          end
      | _ => None
      end
  end.

(** One member [ "key" : value ]. *)
Definition read_member (s : string) : option (string * json * string) :=
  match skip_ws s with
  | String c rest =>
      if bool_decide (c = dq) then
        match read_string rest with
        | Some (key, rest1) =>
            match skip_ws rest1 with
            | String ":" rest2 =>
                match read_value rest2 with
                | Some (v, rest3) => Some (key, v, rest3)
                | None => None
                end
            | _ => None
            end
        | None => None
        end
      else None
  | EmptyString => None
  end.

(** After [{] and a first member: [, member]* [}]. A later member
    replaces an earlier one of the same name. *)
Fixpoint read_members (fuel : nat) (acc : gmap string json) (s : string)
  : option (json * string) :=
  match fuel with
  | 0 => None
  | S fuel' =>
      match skip_ws s with
      | String "}" rest => Some (JObj acc, rest)
      | String "," rest =>
          match read_member rest with
          | Some (key, v, rest') => read_members fuel' (<[key := v]> acc) rest'
          | None => None
          end
      | _ => None
      end
  end.
End Composite.

Fixpoint read_value (fuel : nat) (s : string) : option (json * string) :=
  match fuel with
  | 0 => None
  | S fuel' =>
      match skip_ws s with
      | String "n" _ => (λ rest, (JNull, rest)) <$> drop_prefix "null" (skip_ws s)
      | String "t" _ => (λ rest, (JBool true, rest)) <$> drop_prefix "true" (skip_ws s)
      | String "f" _ => (λ rest, (JBool false, rest)) <$> drop_prefix "false" (skip_ws s)
      | String "[" rest =>
          match skip_ws rest with
          | String "]" rest' => Some (JArr [], rest')
          | _ =>
              match read_value fuel' rest with
              | Some (v, rest') => read_elements (read_value fuel') fuel' [v] rest'
              | None => None
              end
          end
      | String "{" rest =>
          match skip_ws rest with
          | String "}" rest' => Some (JObj ∅, rest')
          | _ =>
              match read_member (read_value fuel') rest with
              | Some (key, v, rest') =>
                  read_members (read_value fuel') fuel' {[ key := v ]} rest'
              | None => None
              end
          end
      | String c rest =>
          if bool_decide (c = dq) then (λ r, (JStr r.1, r.2)) <$> read_string rest
          else None
      | EmptyString => None
      end
  end.

Definition parse (text : bytes) : option json :=
  match read_value (S (String.length text)) text with
  | Some (v, rest) =>
      match skip_ws rest with
      | EmptyString => Some v
      | _ => None
      end
  | None => None
  end.

(** No string or object goes through [-]: every coercion gives NaN. *)
Definition coerce (_ : json) : option float := Some nan.

End MiniJSON.

(** ** A deployment to run the application on *)

Module Demo.

(** The application lives in [/srv/app/dist]. *)
Definition dirname : path := ["srv"; "app"; "dist"].

(** The file system once the application has started: the two stores
    exist and are empty. *)
Definition fs0 : fsys :=
  [ (["srv"], Dir true);
    (["srv"; "app"], Dir true);
    (["srv"; "app"; "dist"], Dir true);
    (["srv"; "app"; "file"], Dir true);
    (["srv"; "app"; "canvas"], Dir true) ].

(** The same deployment before the stores were created. *)
Definition fs_bare : fsys :=
  [ (["srv"], Dir true);
    (["srv"; "app"], Dir true);
    (["srv"; "app"; "dist"], Dir true) ].

Definition uuid1 : string := "1b9d6bcd-bbfd-4b2d-9b5d-ab8dfbbd4bed".
Definition uuid2 : string := "9c5b94b1-35ad-49bb-b118-8e8fc24abf80".
Definition uuid3 : string := "f47ac10b-58cc-4372-a567-0e02b2c3d479".
Definition uuid4 : string := "6fa459ea-ee8a-4ca4-894e-db77e160355e".

Definition t1 : string := "2024-05-01T10:00:00.000Z".
Definition t2 : string := "2024-05-02T10:00:00.000Z".
Definition t3 : string := "2024-05-03T10:00:00.000Z".

Definition sketch (title : string) : json := JObj {[ "title" := JStr title ]}.

(** The three bytes 1, 2, 3. *)
Definition three_bytes : bytes :=
  String "001"%char (String "002"%char (String "003"%char "")).

(** A name with an extension of 220 bytes, the dot included, and one
    with an extension of 219 bytes. *)
Definition long_name : string := "a." +:+ of_chars (replicate 219 "x"%char).
Definition fitting_name : string := "a." +:+ of_chars (replicate 218 "x"%char).

Definition file_dir : path := ["srv"; "app"; "file"].
Definition canvas_dir : path := ["srv"; "app"; "canvas"].

(** After [photo.jpg] was uploaded under [uuid1]. *)
Definition fs_photo : fsys :=
  (file_dir ++ [uuid1 +:+ ".jpg"], File true three_bytes) :: fs0.


(** The canvas a request for [sketch title] at time [now] creates. *)
Definition canvas (id title now : string) : json :=
  JObj {[ "id" := JStr id; "title" := JStr title; "createAt" := JStr now ]}.

Definition canvas1 : json := canvas uuid1 "first" t1.
Definition canvas2 : json := canvas uuid2 "second" t2.
Definition canvas3 : json := canvas uuid3 "third" t3.

(** After three sketches were created at [t1], [t2] and [t3], each
    entry enumerated after the entries that were there. *)
Definition fs_three : fsys :=
  fs0 ++ [ (canvas_dir ++ [uuid1 +:+ ".json"], File true (MiniJSON.stringify canvas1));
           (canvas_dir ++ [uuid2 +:+ ".json"], File true (MiniJSON.stringify canvas2));
           (canvas_dir ++ [uuid3 +:+ ".json"], File true (MiniJSON.stringify canvas3)) ].

(** A canvas directory with one entry that parses and one that does not. *)
Definition fs_broken : fsys :=
  fs0 ++ [ (canvas_dir ++ [uuid1 +:+ ".json"], File true (MiniJSON.stringify canvas1));
           (canvas_dir ++ [uuid2 +:+ ".json"], File true "{oops") ].

(** What [POST /canvas] answers to [{ id: "mine" }] at [t1]. *)
Definition canvas_mine : json :=
  JObj {[ "id" := JStr "mine"; "createAt" := JStr t1 ]}.

Definition fs_mine : fsys :=
  fs0 ++ [ (canvas_dir ++ [uuid1 +:+ ".json"], File true (MiniJSON.stringify canvas_mine)) ].

(** A canvas directory with a canvas and an entry that holds [null]. *)
Definition fs_null : fsys :=
  fs0 ++ [ (canvas_dir ++ [uuid1 +:+ ".json"], File true (MiniJSON.stringify canvas1));
           (canvas_dir ++ [uuid2 +:+ ".json"], File true "null") ].

(** After [fs_three], with a text file beside the canvases. *)
Definition fs_three_notes : fsys :=
  insert_at 6 (canvas_dir ++ ["notes.txt"], File true "{oops") fs_three.

End Demo.

(** ** Responses *)

(** What a route answers. The texts of the error messages are not
    modelled: [Failure status] is a JSON body with an [error] field (and a
    [details] field on the canvas routes). [Unhandled] is an error handed
    to the framework's own error handler. *)
Inductive response :=
| Json (status : nat) (body : json)
| Sent (content : bytes)
| Failure (status : nat)
| Unhandled.

Definition status_of (r : response) : option nat :=
  match r with
  | Json status _ => Some status
  | Sent _ => Some 200
  | Failure status => Some status
  | Unhandled => None
  end.

(** The [fileId] field of the body of a 200 answer: what the client of
    [POST /upload] reads its identifier from. *)
Definition returned_fileId (r : response) : option string :=
  match r with
  | Json 200 body =>
      match own_props body !! "fileId" with
      | Some (JStr fileId) => Some fileId
      | _ => None
      end
  | _ => None
  end.

(** [res.sendFile(p)]: the bytes of a readable regular file. The checks
    the framework makes on the path before it sends are not modelled. *)
Definition sendFile (fs : fsys) (p : path) : response :=
  match readFileSync fs p with
  | Some content => Sent content
  | None => Unhandled
  end.

(** ** The application *)

Section Server.

(** [JSON.parse] on the text of a file ([None] when it throws) and
    [JSON.stringify(v, null, 2)]. *)
Variable JSON_parse : bytes → option json.
Variable JSON_stringify : json → bytes.

(** The runtime's ToNumber on a string, an array or an object; [None]
    when the conversion throws. *)
Variable coerce : json → option float.

(** [__dirname], resolved. *)
Variable dirname : path.

Definition fileDir : path := path_join dirname "../file".
Definition canvasDir : path := path_join dirname "../canvas".

(** The two [if (!fs.existsSync(dir)) fs.mkdirSync(dir, ...)] run when
    the module is loaded; [None] when the process dies there. *)
Definition ensure_dir (fs : fsys) (dir : path) : option fsys :=
  if negb (existsSync fs dir) then mkdirSync fs dir else Some fs.

Definition startup (fs : fsys) : option fsys :=
  match ensure_dir fs fileDir with
  | Some fs1 => ensure_dir fs1 canvasDir
  | None => None
  end.

(** *** The file store *)

(** The [filename] callback of [multer.diskStorage]; [fileId] is the
    value of [uuidv4()]. *)
Definition storage_filename (fileId originalname : string) : string :=
  fileId +:+ extname originalname.

Definition upload_body (fileId : string) : json :=
  JObj {[ "fileId" := JStr fileId;
          "message" := JStr "ファイルのアップロードに成功しました" ]}.

(** [POST /upload]. [file] is the part of the request named [file],
    with its original name and its bytes, when there is one; the
    middleware stores it at [path.join(destination, filename)] before
    the route runs. A request with a file part under another name,
    which the middleware refuses, is not among the requests modelled. *)
Definition post_upload (fs : fsys) (uuid : string) (pos : nat)
    (file : option (string * bytes)) : fsys * response :=
  match file with
  | None => (fs, Failure 400)
  | Some (originalname, content) =>
      let filename := storage_filename uuid originalname in
      match writeFile fs pos (path_join fileDir filename) content with
      | None => (fs, Unhandled)
      | Some fs' => (fs', Json 200 (upload_body (parse_name filename)))
      end
  end.

(** [GET /file/:fileId] *)
Definition get_file (fs : fsys) (fileId : string) : response :=
  match readdir fs fileDir with
  | None => Failure 500
  | Some files =>
      match find (λ file, startsWith file fileId) files with
      | None | Some EmptyString => Failure 404
      | Some targetFile => sendFile fs (path_join fileDir targetFile)
      end
  end.

(** *** The canvas store *)

(** [{ id: canvasId, ...canvasData, createAt: now }] *)
Definition newCanvas (canvasId : string) (canvasData : json) (now : string) : json :=
  JObj (<["createAt" := JStr now]>
          (spread (<["id" := JStr canvasId]> ∅) (own_props canvasData))).

(** [POST /canvas]. [canvasId] is the value of [uuidv4()] and [now]
    that of [new Date().toISOString()]. *)
Definition post_canvas (fs : fsys) (canvasId now : string) (pos : nat)
    (canvasData : json) : fsys * response :=
  let nc := newCanvas canvasId canvasData now in
  let filePath := path_join canvasDir (canvasId +:+ ".json") in
  match writeFile fs pos filePath (JSON_stringify nc) with
  | Some fs' => (fs', Json 201 nc)
  | None => (fs, Failure 500)
  end.

(** ToNumber, on the value of a property read. *)
Definition ToNumber (v : option json) : option float :=
  match v with
  | None => Some nan
  | Some JNull => Some 0%float
  | Some (JBool b) => Some (if b then 1%float else 0%float)
  | Some (JNum x) => Some x
  | Some w => coerce w
  end.

(** [(a, b) => b.createDate - a.createDate]; [None] when it throws. *)
Definition compareFn (a b : json) : option float :=
  match get_createDate b with
  | None => None
  | Some bd =>
      match get_createDate a with
      | None => None
      | Some ad =>
          match ToNumber bd, ToNumber ad with
          | Some x, Some y => Some (x - y)%float
          | _, _ => None
          end
      end
  end.

(** [Array.prototype.sort] with [compareFn]: a stable sort in which a
    result that is not greater than zero, NaN included, leaves the two
    elements in their order. The elements are inserted from the last to
    the first; a comparison that throws aborts the sort. Where the
    results of [compareFn] do not make an order (some canvases with a
    numeric [createDate], others without) the engine's own merge sort
    can leave another arrangement of the same elements than this one;
    where every result is NaN both leave the array as it was. *)
Fixpoint sort_insert (x : json) (sorted : list json) : option (list json) :=
  match sorted with
  | [] => Some [x]
  | y :: rest =>
      match compareFn x y with
      | None => None
      | Some v =>
          if (0 <? v)%float then
            match sort_insert x rest with
            | Some l => Some (y :: l)
            | None => None
            end
          else Some (x :: y :: rest)
      end
  end.

Fixpoint sort (canvases : list json) : option (list json) :=
  match canvases with
  | [] => Some []
  | x :: rest =>
      match sort rest with
      | Some sorted => sort_insert x sorted
      | None => None
      end
  end.

(** [JSON.parse(fs.readFileSync(path.join(canvasDir, file), 'utf-8'))] *)
Definition read_canvas (fs : fsys) (file : string) : option json :=
  match readFileSync fs (path_join canvasDir file) with
  | Some fileData => JSON_parse fileData
  | None => None
  end.

(** [GET /canvas] *)
Definition get_canvas (fs : fsys) : fsys * response :=
  if negb (existsSync fs canvasDir) then
    match mkdirSync fs canvasDir with
    | Some fs' => (fs', Json 200 (JArr []))
    | None => (fs, Failure 500)
    end
  else
    match readdir fs canvasDir with
    | None => (fs, Failure 500)
    | Some names =>
        let files := filter (λ file, endsWith file ".json" = true) names in
        match mapM (read_canvas fs) files with
        | None => (fs, Failure 500)
        | Some canvases =>
            match sort canvases with
            | Some sorted => (fs, Json 200 (JArr sorted))
            | None => (fs, Failure 500)
            end
        end
    end.

(** [GET /canvas/:id] *)
Definition get_canvas_id (fs : fsys) (id : string) : response :=
  let filePath := path_join canvasDir (id +:+ ".json") in
  if negb (existsSync fs filePath) then Failure 404
  else
    match readFileSync fs filePath with
    | Some fileData =>
        match JSON_parse fileData with
        | Some canvas => Json 200 canvas
        | None => Failure 500
        end
    | None => Failure 500
    end.


(** *** Sequences of requests *)

Inductive request :=
| Upload (uuid : string) (pos : nat) (file : option (string * bytes))
| Download (fileId : string)
| Create (canvasId now : string) (pos : nat) (canvasData : json)
| ListAll
| GetById (id : string).

Definition handle (fs : fsys) (req : request) : fsys * response :=
  match req with
  | Upload uuid pos file => post_upload fs uuid pos file
  | Download fileId => (fs, get_file fs fileId)
  | Create canvasId now pos canvasData => post_canvas fs canvasId now pos canvasData
  | ListAll => get_canvas fs
  | GetById id => (fs, get_canvas_id fs id)
  end.

(** The file system after the requests were served, one after the other. *)
Definition run (fs : fsys) (reqs : list request) : fsys :=
  fold_left (λ fs req, (handle fs req).1) reqs fs.

(** The identifier a request draws from [uuidv4()], when it draws one. *)
Definition generated (req : request) : option string :=
  match req with
  | Upload uuid _ (Some _) => Some uuid
  | Create canvasId _ _ _ => Some canvasId
  | _ => None
  end.



(** The canvas a request creates, when it is a creation. *)
Definition created (req : request) : option json :=
  match req with
  | Create canvasId now _ canvasData => Some (newCanvas canvasId canvasData now)
  | _ => None
  end.

(** The names [readdir] lists for [dir], whether or not it can be read. *)
Definition children (fs : fsys) (dir : path) : list string :=
  omap (child_name dir) fs.

(** The names of the entries of the two stores come from the
    identifiers [ids]. *)
Definition names_from (ids : list string) (fs : fsys) : Prop :=
  (∀ name, name ∈ children fs fileDir →
     ∃ u, u ∈ ids ∧ is_uuid u = true ∧ ∃ originalname, name = storage_filename u originalname)
  ∧ (∀ name, name ∈ children fs canvasDir →
     ∃ u, u ∈ ids ∧ is_uuid u = true ∧ name = u +:+ ".json").

Definition stores_ready (fs : fsys) : Prop :=
  stat fs fileDir = Some (Dir true) ∧ stat fs canvasDir = Some (Dir true).

(** No two entries of a store have the same identifier, the identifier
    of an entry being its name without its extension. *)
Definition distinct_identifiers (fs : fsys) : Prop :=
  NoDup (parse_name <$> children fs fileDir)
  ∧ NoDup (parse_name <$> children fs canvasDir).

(** ** Facts about strings *)

Lemma chars_app (s t : string) : chars (s +:+ t) = chars s ++ chars t.
Proof.
  induction s as [|c s IH]; [done|].
  unfold String.app in *. simpl. by rewrite IH.
Qed.

Lemma chars_inj (s t : string) : chars s = chars t → s = t.
Proof.
  intros H. rewrite <- (String.string_of_list_ascii_of_string s).
  rewrite <- (String.string_of_list_ascii_of_string t).
  unfold chars in H. by rewrite H.
Qed.

Lemma startsWith_prefix (s p : string) :
  startsWith s p = true ↔ chars p `prefix_of` chars s.
Proof.
  revert s. induction p as [|c p IH]; intros s; simpl.
  - split; [intros _; apply prefix_nil | done].
  - destruct s as [|d s]; simpl.
    + split; [done | intros H; by apply prefix_nil_not in H].
    + rewrite andb_true_iff, bool_decide_eq_true, IH. split.
      * intros [-> H]. by apply prefix_cons.
      * intros H. split; [by apply prefix_cons_inv_1 in H | by apply prefix_cons_inv_2 in H].
Qed.

Lemma startsWith_app (s t : string) : startsWith (s +:+ t) s = true.
Proof. apply startsWith_prefix. rewrite chars_app. apply prefix_app_r. done. Qed.

(** A string that starts with [t] and with [u], of the same length,
    starts with one string only. *)
Lemma startsWith_same_length (u e t : string) :
  startsWith (u +:+ e) t = true →
  length (chars t) = length (chars u) →
  t = u.
Proof.
  intros H Hlen. apply startsWith_prefix in H. rewrite chars_app in H.
  destruct H as [k Hk]. apply chars_inj.
  apply (f_equal (take (length (chars t)))) in Hk.
  rewrite take_app_length in Hk. rewrite Hlen, take_app_length in Hk. done.
Qed.

Lemma chars_rev_app (s acc : string) :
  chars (String.rev_app s acc) = reverse (chars s) ++ chars acc.
Proof.
  revert acc. induction s as [|c s IH]; intros acc; simpl; [done|].
  rewrite IH, reverse_cons. simpl. by rewrite <- app_assoc.
Qed.

Lemma chars_rev (s : string) : chars (String.rev s) = reverse (chars s).
Proof. unfold String.rev. rewrite chars_rev_app. simpl. by rewrite app_nil_r. Qed.

Lemma endsWith_suffix (s p : string) :
  endsWith s p = true ↔ chars p `suffix_of` chars s.
Proof.
  unfold endsWith. rewrite startsWith_prefix, !chars_rev.
  symmetry. apply suffix_prefix_reverse.
Qed.

Lemma endsWith_app (s t : string) : endsWith (s +:+ t) t = true.
Proof. apply endsWith_suffix. rewrite chars_app. by apply suffix_app_r. Qed.

Lemma app_inv_suffix (s t e : string) : s +:+ e = t +:+ e → s = t.
Proof.
  intros H. apply chars_inj. apply (f_equal chars) in H.
  rewrite !chars_app in H. by apply app_inv_tail in H.
Qed.

Lemma chars_substring (n m : nat) (s : string) :
  chars (String.substring n m s) = take m (drop n (chars s)).
Proof.
  revert n m. induction s as [|c s IH]; intros n m.
  - destruct n, m; done.
  - destruct n as [|n]; simpl.
    + destruct m as [|m]; simpl; [done|]. by rewrite (IH 0), drop_0.
    + apply IH.
Qed.

Lemma split_no_sep (sep : ascii) (s : string) :
  sep ∉ chars s → split sep s = [s].
Proof.
  induction s as [|c s IH]; intros H; simpl; [done|].
  simpl in H. rewrite bool_decide_eq_false_2 by (intros ->; apply H; left).
  rewrite IH; [done|]. intros Hin. apply H. by right.
Qed.

Lemma path_join_plain (dir : path) (seg : string) :
  plain seg → path_join dir seg = dir ++ [seg].
Proof.
  intros (Hsep & H1 & H2 & H3). unfold path_join. rewrite split_no_sep by done.
  simpl. unfold normalize_step.
  by rewrite !bool_decide_eq_false_2.
Qed.

Lemma fileDir_eq : fileDir = removelast dirname ++ ["file"].
Proof. reflexivity. Qed.

Lemma canvasDir_eq : canvasDir = removelast dirname ++ ["canvas"].
Proof. reflexivity. Qed.

Lemma canvasDir_not_root : canvasDir ≠ [].
Proof. rewrite canvasDir_eq. by destruct (removelast dirname). Qed.

Lemma fileDir_not_root : fileDir ≠ [].
Proof. rewrite fileDir_eq. by destruct (removelast dirname). Qed.

Lemma removelast_snoc {A} (l : list A) (x : A) : removelast (l ++ [x]) = l.
Proof. apply removelast_last. Qed.

(** ** The path functions on the examples of the Node.js documentation *)

Example extname_html : extname "index.html" = ".html". Proof. reflexivity. Qed.
Example extname_md : extname "index.coffee.md" = ".md". Proof. reflexivity. Qed.
Example extname_dot : extname "index." = ".". Proof. reflexivity. Qed.
Example extname_none : extname "index" = "". Proof. reflexivity. Qed.
Example extname_hidden : extname ".index" = "". Proof. reflexivity. Qed.
Example extname_hidden_md : extname ".index.md" = ".md". Proof. reflexivity. Qed.
Example extname_dotdot : extname ".." = "". Proof. reflexivity. Qed.
Example extname_dots : extname "..." = ".". Proof. reflexivity. Qed.
Example extname_dir : extname "a.b/c" = "". Proof. reflexivity. Qed.
Example extname_trail : extname "a.b/" = ".b". Proof. reflexivity. Qed.
Example parse_name_png : parse_name "abc.png" = "abc". Proof. reflexivity. Qed.
Example parse_name_abs : parse_name "/x/abc.tar.gz" = "abc.tar". Proof. reflexivity. Qed.
Example spec_ext_ex : spec_extension "a.tar.gz" = ".gz". Proof. reflexivity. Qed.
Example join_up : path_join ["srv"; "app"; "dist"] "../canvas" = ["srv"; "app"; "canvas"].
Proof. reflexivity. Qed.
Example join_escape : path_join ["srv"; "app"; "canvas"] "../file/x.json" = ["srv"; "app"; "file"; "x.json"].
Proof. reflexivity. Qed.

(** ** The backward scan of [path.extname] *)

Local Ltac scan_close :=
  repeat split; simpl in *;
  try done; try (by constructor); try (f_equal; lia); try congruence;
  try (match goal with
       | H : ?x = Some _ |- ?x = Some _ => rewrite H; f_equal; lia
       end).

Lemma scan_segment (start : nat) (r : list ascii) :
  ∀ st vis,
    seen start st (length r) vis → startPart st = 0 → vis ≠ [] →
    ∃ pre vis',
      reverse r ++ vis = pre ++ vis' ∧ vis' ≠ []
      ∧ seen start (ext_scan start r st) (length pre) vis'
      ∧ ((pre = [] ∧ startPart (ext_scan start r st) = 0)
         ∨ (∃ pre', pre = pre' ++ ["/"%char])
           ∧ startPart (ext_scan start r st) = start + length pre).
Proof.
  induction r as [|c r IH]; intros st vis Hseen Hpart Hvis.
  - exists [], vis. simpl. split; [done|]. split; [done|]. split; [exact Hseen|]. by left.
  - destruct Hseen as (Hms & Hend & Hslash & Hdot). simpl.
    case_bool_decide as Hc.
    + subst c. rewrite Hms. simpl.
      exists (reverse r ++ ["/"%char]), vis.
      rewrite reverse_cons. split; [done|]. split; [done|].
      split.
      * rewrite length_app, length_reverse. simpl.
        split; [done|]. split; [simpl; rewrite Hend; f_equal; simpl; lia|].
        split; [done|]. simpl.
        destruct Hdot as [Hdot|(a & x & -> & Hx & Hsd & Hpre)]; [by left|].
        right. exists a, x. repeat split; [done..| |done].
        rewrite Hsd. f_equal. simpl. lia.
      * right. split; [by eexists|]. simpl.
        rewrite length_app, length_reverse. simpl. lia.
    + rewrite Hend.
      set (st2 := if bool_decide (c = "."%char) then _ else _).
      assert (Hseen2 : seen start st2 (length r) (c :: vis)).
      { unfold st2. split; [by repeat case_match|].
        split; [repeat case_match; simpl in *; rewrite ?Hend; f_equal; lia|].
        split; [by constructor|].
        destruct Hdot as [(Hsd & Hnd & Hpre)|(a & x & -> & Hx & Hsd & Hpre)].
        - rewrite Hsd. case_bool_decide as Hd.
          + right. exists [], vis. subst c. scan_close.
          + left. scan_close.
        - rewrite Hsd. right. exists (c :: a), x.
          case_bool_decide as Hd.
          + subst c. case_bool_decide; scan_close.
          + scan_close. by rewrite bool_decide_eq_false_2. }
      assert (Hpart2 : startPart st2 = 0).
      { unfold st2. by repeat case_match. }
      destruct (IH st2 (c :: vis) Hseen2 Hpart2 ltac:(done))
        as (pre & vis' & Heq & Hne & Hs & Hp).
      exists pre, vis'. rewrite reverse_cons, <- app_assoc. simpl. done.
Qed.

(** What the scan of a whole path has recorded when it ends. *)
Lemma scan_spec_gen (start : nat) (r : list ascii) :
  ∀ slashes, Forall (λ c, c = "/"%char) slashes →
    let st := ext_scan start r scan_init in
    (st = scan_init ∧ Forall (λ c, c = "/"%char) (reverse r ++ slashes))
    ∨ (∃ pre vis slashes',
         reverse r ++ slashes = pre ++ vis ++ slashes'
         ∧ Forall (λ c, c = "/"%char) slashes' ∧ vis ≠ []
         ∧ seen start st (length pre) vis
         ∧ ((pre = [] ∧ startPart st = 0)
            ∨ (∃ pre', pre = pre' ++ ["/"%char]) ∧ startPart st = start + length pre)).
Proof.
  induction r as [|c r IH]; intros slashes Hsl; simpl.
  - left. done.
  - case_bool_decide as Hc.
    + subst c. simpl. rewrite reverse_cons, <- app_assoc. simpl.
      apply IH. by constructor.
    + right.
      set (st2 := if bool_decide (c = "."%char) then _ else _).
      assert (Hseen2 : seen start st2 (length r) [c]).
      { unfold st2. split; [by case_bool_decide|].
        split; [case_bool_decide; simpl; f_equal; lia|].
        split; [by repeat constructor|].
        case_bool_decide as Hd; simpl.
        - right. exists [], []. subst c. scan_close.
        - left. scan_close. }
      assert (Hpart2 : startPart st2 = 0).
      { unfold st2. by case_bool_decide. }
      destruct (scan_segment start r st2 [c] Hseen2 Hpart2 ltac:(done))
        as (pre & vis' & Heq & Hne & Hs & Hp).
      exists pre, vis', slashes. rewrite reverse_cons, app_assoc, Heq.
      by rewrite <- app_assoc.
Qed.

Lemma scan_spec (start : nat) (l : list ascii) :
  let st := ext_scan start (reverse l) scan_init in
  (st = scan_init ∧ Forall (λ c, c = "/"%char) l)
  ∨ (∃ pre vis slashes,
       l = pre ++ vis ++ slashes
       ∧ Forall (λ c, c = "/"%char) slashes ∧ vis ≠ []
       ∧ seen start st (length pre) vis
       ∧ ((pre = [] ∧ startPart st = 0)
          ∨ (∃ pre', pre = pre' ++ ["/"%char]) ∧ startPart st = start + length pre)).
Proof.
  pose proof (scan_spec_gen start (reverse l) [] ltac:(constructor)) as H.
  rewrite reverse_involutive, app_nil_r in H. exact H.
Qed.

Lemma of_chars_chars (s : string) : of_chars (chars s) = s.
Proof. apply String.string_of_list_ascii_of_string. Qed.

Lemma chars_of_chars (l : list ascii) : chars (of_chars l) = l.
Proof. apply String.list_ascii_of_string_of_list_ascii. Qed.

Lemma slice_middle (p : string) (l1 l2 l3 : list ascii) :
  chars p = l1 ++ l2 ++ l3 →
  slice p (length l1) (length l1 + length l2) = of_chars l2.
Proof.
  intros H. apply chars_inj. unfold slice.
  rewrite chars_substring, chars_of_chars, H, drop_app_length.
  replace (length l1 + length l2 - length l1) with (length l2) by lia.
  apply take_app_length.
Qed.

Lemma slice_all (p : string) : slice p 0 (length (chars p)) = p.
Proof.
  pose proof (slice_middle p [] (chars p) []) as H. simpl in H.
  rewrite of_chars_chars, app_nil_r in H. by apply H.
Qed.

(** The last dot of a list of characters is at one place only. *)
Lemma last_dot_unique (a a' x x' : list ascii) :
  a ++ "."%char :: x = a' ++ "."%char :: x' →
  Forall (λ c, c ≠ "."%char) x → Forall (λ c, c ≠ "."%char) x' →
  a = a' ∧ x = x'.
Proof.
  revert a'. induction a as [|c a IH]; intros [|c' a'] H Hx Hx'; simplify_eq/=.
  - done.
  - exfalso. rewrite Forall_app, Forall_cons in Hx. by destruct Hx as (_ & ? & _).
  - exfalso. rewrite Forall_app, Forall_cons in Hx'. by destruct Hx' as (_ & ? & _).
  - destruct (IH a' ltac:(done) Hx Hx') as [-> ->]. done.
Qed.

(** The extension [path.extname] returns has the shape of an extension. *)
Lemma extname_shape (p : string) : is_extension (extname p).
Proof.
  unfold extname.
  destruct (scan_spec 0 (chars p))
    as [[Hst _]|(pre & vis & slashes & Hl & Hsl & Hne & Hseen & Hp)].
  { rewrite Hst. by left. }
  destruct Hseen as (Hms & Hend & Hslash & [(Hsd & _)|(a & x & -> & Hx & Hsd & Hpre)]).
  { unfold scan_ext. rewrite Hsd. by left. }
  unfold scan_ext. rewrite Hsd, Hend.
  match goal with |- context [if ?b then None else _] => destruct b end; [by left|].
  right. exists (of_chars x). rewrite chars_of_chars.
  rewrite Forall_app, Forall_cons in Hslash. destruct Hslash as (_ & _ & Hslash).
  split; [|done].
  change (String "."%char (of_chars x)) with (of_chars ("."%char :: x)).
  rewrite <- (slice_middle p (pre ++ a) ("."%char :: x) slashes).
  - f_equal; rewrite !length_app; simpl; lia.
  - rewrite Hl, <- !app_assoc. done.
Qed.

(** The scan of a name without separator visits the whole name. *)
Lemma scan_plain (l : list ascii) :
  Forall (λ c, c ≠ "/"%char) l → l ≠ [] →
  seen 0 (ext_scan 0 (reverse l) scan_init) 0 l
  ∧ startPart (ext_scan 0 (reverse l) scan_init) = 0.
Proof.
  intros Hl Hne.
  destruct (scan_spec 0 l)
    as [[_ Hall]|(pre & vis & slashes & -> & Hsl & Hvis & Hseen & Hp)].
  { destruct l as [|c l]; [done|]. inversion Hall; inversion Hl; subst. done. }
  rewrite !Forall_app in Hl. destruct Hl as (Hpre & _ & Hslashes).
  assert (slashes = []) as ->.
  { destruct slashes as [|c s]; [done|]. inversion Hsl; inversion Hslashes; subst. done. }
  assert (pre = []) as ->.
  { destruct Hp as [[-> _]|[[pre' ->] _]]; [done|].
    rewrite Forall_app, Forall_singleton in Hpre. by destruct Hpre. }
  rewrite app_nil_r in *. simpl in *. split; [done|].
  destruct Hp as [[_ ?]|[[pre' ?] _]]; [done|]. by destruct pre'.
Qed.

Lemma spec_extension_no_dot (name : string) :
  Forall (λ c, c ≠ "."%char) (chars name) → spec_extension name = "".
Proof.
  induction name as [|c name IH]; intros H; simpl; [done|].
  simpl in H. inversion H; subst.
  rewrite bool_decide_eq_false_2 by done. simpl. by apply IH.
Qed.

Lemma existsb_dot_false (x : list ascii) :
  Forall (λ c, c ≠ "."%char) x → existsb (λ d, bool_decide (d = "."%char)) x = false.
Proof.
  induction 1 as [|c x Hc _ IH]; simpl; [done|].
  by rewrite bool_decide_eq_false_2, IH.
Qed.

Lemma spec_extension_last_dot (name : string) (a x : list ascii) :
  chars name = a ++ "."%char :: x → Forall (λ c, c ≠ "."%char) x →
  spec_extension name = of_chars ("."%char :: x).
Proof.
  revert a. induction name as [|c name IH]; intros a H Hx.
  - by destruct a.
  - simpl in H. destruct a as [|c' a]; simplify_eq/=.
    + rewrite existsb_dot_false by done. simpl. by rewrite of_chars_chars.
    + replace (existsb _ (chars name)) with true; last first.
      { symmetry. apply existsb_exists. exists "."%char.
        split; [|by apply bool_decide_eq_true_2].
        match goal with H : chars name = _ |- _ => rewrite H end. apply in_elt. }
      rewrite andb_false_r. by apply (IH a).
Qed.

(** [path.extname] on a name without separator: the extension of the
    specification, unless that would be the whole name or the name is
    [..]. *)
Lemma extname_plain (name : string) :
  Forall (λ c, c ≠ "/"%char) (chars name) →
  extname name =
    if bool_decide (spec_extension name = name ∨ name = "..") then ""
    else spec_extension name.
Proof.
  intros Hl. destruct (decide (chars name = [])) as [Hnil|Hne].
  { destruct name; [done|]. done. }
  destruct (scan_plain _ Hl Hne) as [(Hms & Hend & _ & Hdot) Hpart].
  unfold extname, scan_ext.
  destruct Hdot as [(Hsd & Hnd & _)|(a & x & Hvis & Hx & Hsd & Hpre)].
  { rewrite Hsd, spec_extension_no_dot by done. by case_bool_decide. }
  rewrite Hsd, Hend, Hpart, Hpre, (spec_extension_last_dot name a x) by done.
  simpl. rewrite Hvis.
  destruct a as [|c a]; simpl.
  - rewrite bool_decide_eq_true_2; [done|]. left.
    by rewrite <- (of_chars_chars name), Hvis.
  - assert (Hneq : of_chars ("."%char :: x) ≠ name).
    { intros <-. rewrite chars_of_chars in Hvis.
      apply (f_equal length) in Hvis. rewrite length_app in Hvis. simpl in Hvis. lia. }
    rewrite length_app. simpl.
    destruct (decide (name = "..")) as [->|Hdd].
    + change (chars "..") with ["."%char; "."%char] in Hvis.
      destruct a as [|c2 a]; [|destruct a; simplify_eq/=].
      simplify_eq/=. done.
    + rewrite (bool_decide_eq_false_2 (_ ∨ _)) by (by intros [?|?]).
      assert (Hsl : slice name (S (length a)) (S (length a + S (length x)))
                    = of_chars ("."%char :: x)).
      { pose proof (slice_middle name (c :: a) ("."%char :: x) []) as H.
        rewrite app_nil_r in H. rewrite <- (H Hvis). f_equal. }
      repeat case_bool_decide; simplify_eq/=; try done; try lia.
      exfalso. apply Hdd. apply chars_inj. rewrite Hvis.
      destruct a, x; simplify_eq/=; try done; lia.
Qed.

(** ** Identifiers and stored names *)

Lemma uuid_char_ok_plain (i : nat) (c : ascii) :
  uuid_char_ok i c = true → c ≠ "/"%char ∧ c ≠ "."%char.
Proof.
  intros H. split; intros ->; unfold uuid_char_ok in H;
    repeat case_bool_decide; done.
Qed.

Lemma uuid_chars_plain (i : nat) (l : list ascii) :
  uuid_chars i l = true → Forall (λ c, c ≠ "/"%char ∧ c ≠ "."%char) l.
Proof.
  revert i. induction l as [|c l IH]; intros i H; simpl in H; [done|].
  apply andb_true_iff in H as [Hc Hl]. constructor.
  - by apply (uuid_char_ok_plain i).
  - by apply (IH (S i)).
Qed.

Lemma is_uuid_length (u : string) : is_uuid u = true → length (chars u) = 36.
Proof. intros H. apply andb_true_iff in H as [H _]. by apply bool_decide_eq_true in H. Qed.

Lemma is_uuid_no_slash (u : string) :
  is_uuid u = true → Forall (λ c, c ≠ "/"%char) (chars u).
Proof.
  intros H. apply andb_true_iff in H as [_ H]. apply uuid_chars_plain in H.
  eapply Forall_impl; [done|]. by intros c [? _].
Qed.

Lemma is_uuid_no_dot (u : string) :
  is_uuid u = true → Forall (λ c, c ≠ "."%char) (chars u).
Proof.
  intros H. apply andb_true_iff in H as [_ H]. apply uuid_chars_plain in H.
  eapply Forall_impl; [done|]. by intros c [_ ?].
Qed.

Lemma is_extension_no_slash (e : string) :
  is_extension e → Forall (λ c, c ≠ "/"%char) (chars e).
Proof.
  intros [->|(x & -> & _ & Hx)]; [constructor|]. by constructor.
Qed.

Lemma not_elem_of_Forall_ne (c : ascii) (l : list ascii) :
  Forall (λ d, d ≠ c) l → c ∉ l.
Proof. rewrite Forall_forall. intros H Hin. by apply (H c). Qed.

(** An identifier followed by an extension is a plain segment. *)
Lemma stored_name_plain (u e : string) :
  is_uuid u = true → is_extension e → plain (u +:+ e).
Proof.
  intros Hu He.
  assert (Hlen : length (chars (u +:+ e)) ≥ 36).
  { rewrite chars_app, length_app, (is_uuid_length u Hu). lia. }
  split.
  - apply not_elem_of_Forall_ne. rewrite chars_app, Forall_app. split.
    + by apply is_uuid_no_slash.
    + by apply is_extension_no_slash.
  - repeat split; intros Heq; rewrite Heq in Hlen; simpl in Hlen; lia.
Qed.

Lemma storage_filename_plain (u originalname : string) :
  is_uuid u = true → plain (storage_filename u originalname).
Proof. intros Hu. apply stored_name_plain; [done|]. apply extname_shape. Qed.

Lemma json_name_plain (u : string) : is_uuid u = true → plain (u +:+ ".json").
Proof.
  intros Hu. apply stored_name_plain; [done|]. right. exists "json".
  split; [done|]. split; repeat constructor; done.
Qed.

(** The names the application makes for canvases are ones the file
    system accepts. *)
Lemma uuid_chars_valid (i : nat) (l : list ascii) :
  uuid_chars i l = true →
  forallb (λ c, negb (bool_decide (c = "000"%char))) l = true.
Proof.
  revert i. induction l as [|c l IH]; intros i H; simpl in H; [done|].
  apply andb_true_iff in H as [Hc Hl]. simpl. rewrite (IH (S i) Hl), andb_true_r.
  rewrite bool_decide_eq_false_2; [done|]. intros ->.
  unfold uuid_char_ok in Hc. repeat case_bool_decide; done.
Qed.

Lemma valid_name_iff (name : string) :
  valid_name name = true
  ↔ length (chars name) ≤ NAME_MAX
    ∧ forallb (λ c, negb (bool_decide (c = "000"%char))) (chars name) = true.
Proof. unfold valid_name. by rewrite andb_true_iff, bool_decide_eq_true. Qed.

Lemma valid_name_json (u : string) : is_uuid u = true → valid_name (u +:+ ".json") = true.
Proof.
  intros Hu. apply valid_name_iff. rewrite chars_app, length_app, forallb_app.
  rewrite (is_uuid_length u Hu). split; [unfold NAME_MAX; simpl; lia|].
  apply andb_true_iff in Hu as [_ Hu]. by rewrite (uuid_chars_valid 0 _ Hu).
Qed.

Lemma valid_path_snoc (dir : path) (name : string) :
  valid_path (dir ++ [name]) = valid_name name.
Proof. unfold valid_path. by rewrite last_snoc. Qed.

(** [path.parse] gives back the identifier a stored name starts with. *)
Lemma parse_name_stored (u e : string) :
  is_uuid u = true → is_extension e → parse_name (u +:+ e) = u.
Proof.
  intros Hu He.
  pose proof (is_uuid_length u Hu) as Hlen.
  pose proof (is_uuid_no_slash u Hu) as Hns.
  pose proof (is_uuid_no_dot u Hu) as Hnd.
  assert (Hpl : Forall (λ c, c ≠ "/"%char) (chars (u +:+ e))).
  { rewrite chars_app, Forall_app. split; [done|]. by apply is_extension_no_slash. }
  assert (Hne : chars (u +:+ e) ≠ []).
  { rewrite chars_app. destruct (chars u); [done|done]. }
  destruct (scan_plain _ Hpl Hne) as [(Hms & Hend & _ & Hdot) Hpart].
  assert (Hc : chars (u +:+ e) = chars u ++ chars e) by apply chars_app.
  destruct (u +:+ e) as [|c0 rest] eqn:Hp; [done|].
  unfold parse_name.
  rewrite bool_decide_eq_false_2; last first.
  { intros ->. simpl in Hpl. by inversion Hpl. }
  cbv zeta. rewrite Hend, Hpart. rewrite andb_false_r.
  unfold scan_ext. set (p := String c0 rest) in *.
  replace (0 + 0 + length (chars p)) with (length (chars p)) by lia.
  destruct Hdot as [(Hsd & Hd & _)|(a & x & Hvis & Hx & Hsd & Hpre)].
  - rewrite Hsd. destruct He as [->|(x & -> & _)].
    + change (chars "") with (@nil ascii) in Hc. rewrite app_nil_r in Hc.
      rewrite slice_all. apply chars_inj. by rewrite Hc.
    + exfalso. rewrite Hc, Forall_app in Hd. destruct Hd as [_ Hd].
      by inversion Hd.
  - rewrite Hsd, Hend, Hpre. destruct He as [->|(y & -> & Hy & _)].
    + exfalso. change (chars "") with (@nil ascii) in Hc.
      rewrite app_nil_r in Hc. rewrite Hc in Hvis.
      rewrite Hvis, Forall_app, Forall_cons in Hnd. by destruct Hnd as (_ & ? & _).
    + rewrite Hvis in Hc. change (chars (String "." y)) with ("."%char :: chars y) in Hc.
      apply last_dot_unique in Hc as [-> ->]; [|done..].
      destruct (chars u) as [|d l] eqn:Hu'; [done|].
      inversion Hnd; subst. unfold pre_dot.
      rewrite (bool_decide_eq_false_2 (d = _)) by done.
      rewrite (bool_decide_eq_false_2 (_ = 0%Z)) by done.
      rewrite (bool_decide_eq_false_2 (_ = 1%Z)) by done.
      cbn [orb andb].
      pose proof (slice_middle p [] (d :: l) ("."%char :: chars y)) as Hs.
      rewrite app_nil_l in Hs. change (length []) with 0 in Hs.
      rewrite Nat.add_0_l in Hs. rewrite Nat.add_0_l. rewrite Hs by done.
      rewrite <- Hu'. apply of_chars_chars.
Qed.

(** ** Facts about the file system *)

Lemma fs_lookup_app (l1 l2 : fsys) (p : path) :
  fs_lookup (l1 ++ l2) p =
    match fs_lookup l1 p with Some n => Some n | None => fs_lookup l2 p end.
Proof.
  induction l1 as [|[q n] l1 IH]; simpl; [done|]. by case_bool_decide.
Qed.

Lemma fs_lookup_take_drop (fs : fsys) (pos : nat) (p : path) :
  fs_lookup fs p = None →
  fs_lookup (take pos fs) p = None ∧ fs_lookup (drop pos fs) p = None.
Proof.
  intros H. rewrite <- (take_drop pos fs), fs_lookup_app in H.
  by destruct (fs_lookup (take pos fs) p).
Qed.

Lemma fs_lookup_insert_at_eq (fs : fsys) (pos : nat) (p : path) (n : node) :
  fs_lookup fs p = None → fs_lookup (insert_at pos (p, n) fs) p = Some n.
Proof.
  intros H. destruct (fs_lookup_take_drop fs pos p H) as [Ht _].
  unfold insert_at. rewrite fs_lookup_app, Ht. simpl.
  by rewrite bool_decide_eq_true_2.
Qed.

Lemma fs_lookup_insert_at_ne (fs : fsys) (pos : nat) (p q : path) (n : node) :
  q ≠ p → fs_lookup (insert_at pos (p, n) fs) q = fs_lookup fs q.
Proof.
  intros H. rewrite <- (take_drop pos fs) at 2. unfold insert_at.
  rewrite !fs_lookup_app. simpl. by rewrite bool_decide_eq_false_2.
Qed.

Lemma fs_lookup_set_content (fs : fsys) (p q : path) (data : bytes) :
  fs_lookup (map (set_content p data) fs) q =
    match fs_lookup fs q with
    | Some (File r c) => Some (File r (if bool_decide (q = p) then data else c))
    | other => other
    end.
Proof.
  induction fs as [|[k n] fs IH]; simpl; [done|].
  destruct n as [r|r c]; simpl.
  - destruct (bool_decide (k = q)); [done|apply IH].
  - destruct (decide (k = p)) as [->|Hk].
    + rewrite (bool_decide_eq_true_2 (p = p)) by done. simpl.
      destruct (decide (p = q)) as [<-|Hq].
      * by rewrite !bool_decide_eq_true_2.
      * rewrite (bool_decide_eq_false_2 (p = q)) by done. apply IH.
    + rewrite (bool_decide_eq_false_2 (k = p)) by done. simpl.
      destruct (decide (k = q)) as [<-|Hq].
      * rewrite bool_decide_eq_true_2 by done. by rewrite bool_decide_eq_false_2.
      * rewrite (bool_decide_eq_false_2 (k = q)) by done. apply IH.
Qed.

Lemma child_name_snoc (dir : path) (name : string) (n : node) :
  child_name dir (dir ++ [name], n) = Some name.
Proof.
  unfold child_name. simpl. rewrite last_snoc. by rewrite bool_decide_eq_true_2.
Qed.

Lemma child_name_Some (dir : path) (e : path * node) (name : string) :
  child_name dir e = Some name → e.1 = dir ++ [name].
Proof.
  unfold child_name. destruct (last e.1) as [l|]; [|done].
  case_bool_decide; [|done]. by intros [= ->].
Qed.

Lemma child_name_set_content (dir p : path) (data : bytes) (e : path * node) :
  child_name dir (set_content p data e) = child_name dir e.
Proof.
  destruct e as [q [r|r c]]; simpl; [done|]. by case_bool_decide.
Qed.

Lemma children_app (l1 l2 : fsys) (dir : path) :
  children (l1 ++ l2) dir = children l1 dir ++ children l2 dir.
Proof. apply omap_app. Qed.

Lemma children_set_content (fs : fsys) (dir p : path) (data : bytes) :
  children (map (set_content p data) fs) dir = children fs dir.
Proof.
  unfold children. induction fs as [|e fs IH]; [done|].
  csimpl. by rewrite child_name_set_content, IH.
Qed.

Lemma children_insert_at (fs : fsys) (pos : nat) (dir : path) (e : path * node) :
  children (insert_at pos e fs) dir =
    children (take pos fs) dir
    ++ match child_name dir e with Some name => [name] | None => [] end
    ++ children (drop pos fs) dir.
Proof.
  unfold insert_at. rewrite children_app. f_equal.
  unfold children. simpl. by destruct (child_name dir e).
Qed.

Lemma children_take_drop (fs : fsys) (pos : nat) (dir : path) :
  children fs dir = children (take pos fs) dir ++ children (drop pos fs) dir.
Proof. by rewrite <- children_app, take_drop. Qed.

Lemma elem_of_children (fs : fsys) (dir : path) (name : string) :
  name ∈ children fs dir ↔ ∃ n, (dir ++ [name], n) ∈ fs.
Proof.
  unfold children. rewrite list_elem_of_omap. split.
  - intros ([q n] & Hin & Hc). apply child_name_Some in Hc. simpl in Hc.
    subst q. by exists n.
  - intros [n Hin]. exists (dir ++ [name], n). split; [done|].
    apply child_name_snoc.
Qed.

Lemma fs_lookup_Some_elem (fs : fsys) (p : path) (n : node) :
  fs_lookup fs p = Some n → (p, n) ∈ fs.
Proof.
  induction fs as [|[q m] fs IH]; simpl; [done|].
  case_bool_decide as Hq.
  - intros [= ->]. subst q. left.
  - intros H. right. by apply IH.
Qed.

Lemma fs_lookup_None_elem (fs : fsys) (p : path) (n : node) :
  fs_lookup fs p = None → (p, n) ∉ fs.
Proof.
  induction fs as [|[q m] fs IH]; simpl; [intros _; apply not_elem_of_nil|].
  case_bool_decide as Hq; [done|]. intros H Hin.
  apply elem_of_cons in Hin as [[= -> ->]|Hin]; [done|]. by apply IH.
Qed.

(** An entry that is not listed among the names of its directory does
    not exist. *)
Lemma fs_lookup_not_child (fs : fsys) (dir : path) (name : string) :
  name ∉ children fs dir → fs_lookup fs (dir ++ [name]) = None.
Proof.
  intros H. destruct (fs_lookup fs (dir ++ [name])) as [n|] eqn:Hl; [|done].
  exfalso. apply H. apply elem_of_children. exists n.
  by apply fs_lookup_Some_elem.
Qed.

Lemma snoc_not_nil {A} (l : list A) (x : A) : l ++ [x] ≠ [].
Proof. by destruct l. Qed.

Lemma stat_child (fs : fsys) (dir : path) (name : string) :
  stat fs (dir ++ [name]) = fs_lookup fs (dir ++ [name]).
Proof. unfold stat. rewrite bool_decide_eq_false_2; [done|apply snoc_not_nil]. Qed.

(** What a successful write leaves behind. *)
Lemma writeFile_stat_eq (fs fs' : fsys) (pos : nat) (p : path) (data : bytes) :
  writeFile fs pos p data = Some fs' →
  ∃ r, stat fs' p = Some (File r data).
Proof.
  unfold writeFile, stat. destruct (valid_path p); [|done].
  case_bool_decide as Hp; [done|].
  destruct (fs_lookup fs p) as [[r|r c]|] eqn:Hl; [done| |].
  - intros [= <-]. exists r. rewrite fs_lookup_set_content, Hl.
    by rewrite bool_decide_eq_true_2.
  - case_match; [|done]. intros [= <-]. exists true.
    by apply fs_lookup_insert_at_eq.
Qed.

Lemma writeFile_stat_ne (fs fs' : fsys) (pos : nat) (p q : path) (data : bytes) :
  writeFile fs pos p data = Some fs' → q ≠ p → stat fs' q = stat fs q.
Proof.
  intros H Hq. unfold stat. case_bool_decide; [done|].
  unfold writeFile in H. destruct (valid_path p); [|done].
  destruct (stat fs p) as [[r|r c]|] eqn:Hl; [done| |].
  - injection H as <-. rewrite fs_lookup_set_content.
    rewrite bool_decide_eq_false_2 by done. by repeat case_match.
  - destruct (is_dir fs (removelast p)); [|done]. injection H as <-.
    by apply fs_lookup_insert_at_ne.
Qed.

Lemma writeFile_children (fs fs' : fsys) (pos : nat) (p dir : path) (data : bytes)
    (name : string) :
  writeFile fs pos p data = Some fs' →
  name ∈ children fs' dir → name ∈ children fs dir ∨ p = dir ++ [name].
Proof.
  unfold writeFile. intros H Hin. destruct (valid_path p); [|done].
  destruct (stat fs p) as [[r|r c]|] eqn:Hl; [done| |].
  - injection H as <-. rewrite children_set_content in Hin. by left.
  - destruct (is_dir fs (removelast p)); [|done]. injection H as <-.
    rewrite children_insert_at in Hin.
    rewrite (children_take_drop fs pos dir).
    rewrite !elem_of_app in Hin. rewrite elem_of_app.
    destruct Hin as [?|[Hin|?]]; [by left; left| |by left; right].
    destruct (child_name dir (p, File true data)) as [name'|] eqn:Hc.
    + apply list_elem_of_singleton in Hin as ->.
      apply child_name_Some in Hc. by right.
    + by apply elem_of_nil in Hin.
Qed.

Lemma find_app_first {A} (f : A → bool) (l1 l2 : list A) (y : A) :
  (∀ x, x ∈ l1 → f x = false) → f y = true → find f (l1 ++ y :: l2) = Some y.
Proof.
  intros Hl1 Hy. induction l1 as [|x l1 IH]; simpl; [by rewrite Hy|].
  rewrite (Hl1 x) by left. apply IH. intros z Hz. apply Hl1. by right.
Qed.

Lemma find_none_all {A} (f : A → bool) (l : list A) :
  (∀ x, x ∈ l → f x = false) → find f l = None.
Proof.
  intros Hl. induction l as [|x l IH]; simpl; [done|].
  rewrite (Hl x) by left. apply IH. intros z Hz. apply Hl. by right.
Qed.

Lemma dir_ne_child {A} (l : list A) (x : A) : l ≠ l ++ [x].
Proof.
  intros H. apply (f_equal length) in H. rewrite length_app in H. simpl in H. lia.
Qed.

Lemma fileDir_ne_canvas_child (a : string) : fileDir ≠ canvasDir ++ [a].
Proof.
  rewrite fileDir_eq, canvasDir_eq. intros H. apply (f_equal length) in H.
  rewrite !length_app in H. simpl in H. lia.
Qed.

Lemma canvasDir_ne_file_child (b : string) : canvasDir ≠ fileDir ++ [b].
Proof.
  rewrite fileDir_eq, canvasDir_eq. intros H. apply (f_equal length) in H.
  rewrite !length_app in H. simpl in H. lia.
Qed.

Lemma store_children_differ (a b : string) : fileDir ++ [b] ≠ canvasDir ++ [a].
Proof.
  rewrite fileDir_eq, canvasDir_eq. intros H.
  apply app_inj_tail in H as [H _]. by apply app_inj_tail in H as [_ H].
Qed.

(** ** The file store *)

Lemma get_file_not_found (fs : fsys) (fileId : string) :
  stat fs fileDir = Some (Dir true) →
  (∀ name, name ∈ children fs fileDir → startsWith name fileId = false) →
  get_file fs fileId = Failure 404.
Proof.
  intros Hdir Hnone. unfold get_file, readdir. rewrite Hdir.
  fold (children fs fileDir). by rewrite find_none_all.
Qed.

(** An upload under a fresh identifier adds one entry to the file
    directory, at the place the operating system gives it. *)
Lemma post_upload_fresh (fs : fsys) (uuid : string) (pos : nat)
    (originalname : string) (content : bytes) :
  is_uuid uuid = true →
  stat fs fileDir = Some (Dir true) →
  (∀ name, name ∈ children fs fileDir → startsWith name uuid = false) →
  valid_name (storage_filename uuid originalname) = true →
  fs_lookup fs (fileDir ++ [storage_filename uuid originalname]) = None
  ∧ post_upload fs uuid pos (Some (originalname, content))
    = (insert_at pos (fileDir ++ [storage_filename uuid originalname],
                      File true content) fs,
       Json 200 (upload_body uuid)).
Proof.
  intros Hu Hdir Hfresh Hvalid.
  pose proof (storage_filename_plain uuid originalname Hu) as Hplain.
  assert (Hnew : fs_lookup fs (fileDir ++ [storage_filename uuid originalname]) = None).
  { apply fs_lookup_not_child. intros Hin. apply Hfresh in Hin.
    unfold storage_filename in Hin. by rewrite startsWith_app in Hin. }
  split; [done|].
  unfold post_upload. rewrite path_join_plain by done.
  unfold writeFile. rewrite valid_path_snoc, Hvalid, stat_child, Hnew, removelast_snoc.
  unfold is_dir. rewrite Hdir. do 3 f_equal.
  apply parse_name_stored; [done|apply extname_shape].
Qed.

(** C5 (as amended): a file that was uploaded is sent back byte for byte.
    For every content and every original name whose stored name, the
    identifier followed by the extension of the name, is one the file
    system accepts (at most 255 bytes, no NUL byte): when the file
    directory can be read and no entry of it starts with the identifier
    drawn for the upload, [POST /upload] answers 200, the [fileId] of
    its body is the identifier drawn, and [GET /file/:fileId] with the
    [fileId] returned then sends exactly the uploaded bytes. *)
Theorem upload_then_get_file (fs : fsys) (uuid : string) (pos : nat)
    (originalname : string) (content : bytes) :
  is_uuid uuid = true →
  stat fs fileDir = Some (Dir true) →
  (∀ name, name ∈ children fs fileDir → startsWith name uuid = false) →
  valid_name (storage_filename uuid originalname) = true →
  ∃ fs' resp,
    post_upload fs uuid pos (Some (originalname, content)) = (fs', resp)
    ∧ status_of resp = Some 200
    ∧ returned_fileId resp = Some uuid
    ∧ get_file fs' uuid = Sent content.
Proof.
  intros Hu Hdir Hfresh Hvalid.
  destruct (post_upload_fresh fs uuid pos originalname content Hu Hdir Hfresh Hvalid)
    as [Hnew Hup].
  set (filename := storage_filename uuid originalname) in *.
  assert (Hplain : plain filename) by by apply storage_filename_plain.
  exists (insert_at pos (fileDir ++ [filename], File true content) fs),
    (Json 200 (upload_body uuid)).
  split; [done|]. split; [done|]. split.
  { unfold returned_fileId, upload_body, own_props.
    by rewrite lookup_insert_eq. }
  unfold get_file, readdir, stat.
  rewrite bool_decide_eq_false_2 by apply fileDir_not_root.
  rewrite fs_lookup_insert_at_ne by apply dir_ne_child.
  unfold stat in Hdir.
  rewrite bool_decide_eq_false_2 in Hdir by apply fileDir_not_root.
  rewrite Hdir.
  fold (children (insert_at pos (fileDir ++ [filename], File true content) fs) fileDir).
  rewrite children_insert_at, child_name_snoc. cbn [app].
  rewrite (find_app_first _ _ _ filename); last first.
  { apply startsWith_app. }
  { intros name Hin. apply Hfresh. rewrite (children_take_drop fs pos).
    apply elem_of_app. by left. }
  assert (Hsend : sendFile
            (insert_at pos (fileDir ++ [filename], File true content) fs)
            (path_join fileDir filename) = Sent content).
  { rewrite path_join_plain by done. unfold sendFile, readFileSync.
    rewrite stat_child. by rewrite fs_lookup_insert_at_eq. }
  clearbody filename. destruct filename as [|c0 rest]; [|done].
  by destruct Hplain as (_ & ? & _).
Qed.

(** C6 (as amended): the stored name keeps the extension of the
    original name.
    For every upload whose original name has no [/], the stored entry
    is named by the identifier followed by the substring of the name
    from its last [.], dot included; it is named by the identifier
    alone when the name has no [.], when its only [.] is its first
    character, or when the name is [..]. *)
Theorem storage_filename_extension (uuid originalname : string) :
  "/"%char ∉ chars originalname →
  storage_filename uuid originalname
    = uuid +:+ (if bool_decide (spec_extension originalname = originalname
                                ∨ originalname = "..")
                then "" else spec_extension originalname).
Proof.
  intros H. unfold storage_filename. f_equal. apply extname_plain.
  apply Forall_forall. intros c Hc ->. by apply H.
Qed.

(** ** The names of the stored entries *)

Lemma get_canvas_fs (fs : fsys) :
  existsSync fs canvasDir = true → (get_canvas fs).1 = fs.
Proof.
  intros H. unfold get_canvas. rewrite H. simpl. by repeat case_match.
Qed.

Lemma names_from_mono (ids ids' : list string) (fs : fsys) :
  ids ⊆ ids' → names_from ids fs → names_from ids' fs.
Proof.
  intros Hsub [Hf Hc]. split.
  - intros name Hin. destruct (Hf name Hin) as (u & Hu & ?). exists u. split; [by apply Hsub|done].
  - intros name Hin. destruct (Hc name Hin) as (u & Hu & ?). exists u. split; [by apply Hsub|done].
Qed.

(** Serving a request keeps the two directories and only adds names
    made from the identifier the request drew. *)
Lemma handle_names_from (ids : list string) (fs : fsys) (req : request) :
  stores_ready fs → names_from ids fs →
  (∀ u, generated req = Some u → is_uuid u = true ∧ u ∈ ids) →
  stores_ready (handle fs req).1 ∧ names_from ids (handle fs req).1.
Proof.
  intros [Hfd Hcd] [Hf Hc] Hgen.
  destruct req as [uuid pos [[originalname content]|]|fileId|canvasId now pos d| |id];
    simpl; try done.
  - destruct (Hgen uuid eq_refl) as [Hu Hin].
    pose proof (storage_filename_plain uuid originalname Hu) as Hplain.
    rewrite path_join_plain by done.
    destruct (writeFile _ _ _ _) as [fs'|] eqn:Hw; simpl; [|done].
    split; [split|split].
    + rewrite (writeFile_stat_ne _ _ _ _ _ _ Hw); [done|apply dir_ne_child].
    + rewrite (writeFile_stat_ne _ _ _ _ _ _ Hw); [done|apply canvasDir_ne_file_child].
    + intros name Hname.
      destruct (writeFile_children _ _ _ _ _ _ _ Hw Hname) as [?|Heq]; [by apply Hf|].
      apply app_inj_tail in Heq as [_ <-]. exists uuid. eauto.
    + intros name Hname.
      destruct (writeFile_children _ _ _ _ _ _ _ Hw Hname) as [?|Heq]; [by apply Hc|].
      by apply store_children_differ in Heq.
  - destruct (Hgen canvasId eq_refl) as [Hu Hin].
    unfold post_canvas. rewrite path_join_plain by by apply json_name_plain.
    destruct (writeFile _ _ _ _) as [fs'|] eqn:Hw; simpl; [|done].
    split; [split|split].
    + rewrite (writeFile_stat_ne _ _ _ _ _ _ Hw); [done|apply fileDir_ne_canvas_child].
    + rewrite (writeFile_stat_ne _ _ _ _ _ _ Hw); [done|apply dir_ne_child].
    + intros name Hname.
      destruct (writeFile_children _ _ _ _ _ _ _ Hw Hname) as [?|Heq]; [by apply Hf|].
      symmetry in Heq. by apply store_children_differ in Heq.
    + intros name Hname.
      destruct (writeFile_children _ _ _ _ _ _ _ Hw Hname) as [?|Heq]; [by apply Hc|].
      apply app_inj_tail in Heq as [_ <-]. exists canvasId. eauto.
  - rewrite get_canvas_fs; [done|]. unfold existsSync. by rewrite Hcd.
Qed.

Lemma run_names_from (ids : list string) (reqs : list request) :
  ∀ fs,
    stores_ready fs → names_from ids fs →
    Forall (λ req, ∀ u, generated req = Some u → is_uuid u = true ∧ u ∈ ids) reqs →
    stores_ready (run fs reqs) ∧ names_from ids (run fs reqs).
Proof.
  induction reqs as [|req reqs IH]; intros fs Hr Hn Hall; [done|].
  inversion Hall as [|?? Hreq Hrest]; subst.
  destruct (handle_names_from ids fs req Hr Hn Hreq) as [Hr' Hn'].
  simpl. by apply IH.
Qed.

(** With names made from identifiers, an identifier that was not used
    is not found, in either store. *)
Lemma unused_not_found (ids : list string) (fs : fsys) (id : string) :
  stores_ready fs → names_from ids fs →
  is_uuid id = true → id ∉ ids →
  get_file fs id = Failure 404 ∧ get_canvas_id fs id = Failure 404.
Proof.
  intros [Hfd Hcd] [Hf Hc] Hid Hnew. split.
  - apply get_file_not_found; [done|]. intros name Hin.
    destruct (Hf name Hin) as (u & Hu & Huu & originalname & ->).
    destruct (startsWith _ id) eqn:Hs; [|done]. exfalso.
    apply startsWith_same_length in Hs.
    + by subst u.
    + by rewrite !is_uuid_length.
  - unfold get_canvas_id. rewrite path_join_plain by by apply json_name_plain.
    unfold existsSync. rewrite stat_child, fs_lookup_not_child; [done|].
    intros Hin. destruct (Hc _ Hin) as (u & Hu & _ & Heq).
    apply app_inv_suffix in Heq. by subst u.
Qed.





(** ** One entry per identifier *)

Lemma NoDup_insert_middle {A} (l1 l2 : list A) (x : A) :
  NoDup (l1 ++ l2) → x ∉ l1 ++ l2 → NoDup (l1 ++ x :: l2).
Proof.
  intros Hnd Hx. rewrite <- Permutation_middle. by constructor.
Qed.

Lemma names_from_identifiers (ids : list string) (fs : fsys) :
  names_from ids fs →
  (∀ u, u ∈ parse_name <$> children fs fileDir → u ∈ ids)
  ∧ (∀ u, u ∈ parse_name <$> children fs canvasDir → u ∈ ids).
Proof.
  intros [Hf Hc]. split; intros u Hu; apply list_elem_of_fmap in Hu as (name & -> & Hin).
  - destruct (Hf name Hin) as (v & Hv & Huuid & originalname & ->).
    unfold storage_filename. rewrite parse_name_stored; [done..|apply extname_shape].
  - destruct (Hc name Hin) as (v & Hv & Huuid & ->).
    rewrite parse_name_stored; [done..|]. right. exists "json".
    split; [done|]. split; repeat constructor; done.
Qed.

(** Writing a new entry [dir/name] adds [name] to the names of [dir]
    and to those of no other directory. *)
Lemma writeFile_new_children (fs fs' : fsys) (pos : nat) (dir : path)
    (name : string) (data : bytes) :
  name ∉ children fs dir →
  writeFile fs pos (dir ++ [name]) data = Some fs' →
  (∃ l1 l2, children fs dir = l1 ++ l2 ∧ children fs' dir = l1 ++ name :: l2)
  ∧ ∀ dir', (∀ name', dir ++ [name] ≠ dir' ++ [name']) →
            children fs' dir' = children fs dir'.
Proof.
  intros Hnew Hw. unfold writeFile in Hw.
  destruct (valid_path _); [|done].
  rewrite stat_child, fs_lookup_not_child in Hw by done.
  destruct (is_dir _ _); [|done]. injection Hw as <-. split.
  - exists (children (take pos fs) dir), (children (drop pos fs) dir).
    split; [apply children_take_drop|].
    by rewrite children_insert_at, child_name_snoc.
  - intros dir' Hdir'. rewrite children_insert_at.
    match goal with
    | |- context [child_name ?d ?e] => assert (child_name d e = None) as ->
    end.
    { destruct (child_name dir' _) as [name'|] eqn:Hc; [|done].
      apply child_name_Some in Hc. by apply Hdir' in Hc. }
    symmetry. apply children_take_drop.
Qed.

(** Serving a request that draws an identifier not used before keeps
    one entry per identifier. *)
Lemma handle_distinct (ids : list string) (fs : fsys) (req : request) :
  stores_ready fs → names_from ids fs → distinct_identifiers fs →
  (∀ u, generated req = Some u → is_uuid u = true ∧ u ∉ ids) →
  distinct_identifiers (handle fs req).1.
Proof.
  intros [Hfd Hcd] Hn [Hdf Hdc] Hgen.
  destruct (names_from_identifiers ids fs Hn) as [Hif Hic].
  destruct req as [uuid pos [[originalname content]|]|fileId|canvasId now pos d| |id];
    simpl; try done.
  - destruct (Hgen uuid eq_refl) as [Hu Hfresh].
    pose proof (storage_filename_plain uuid originalname Hu) as Hplain.
    rewrite path_join_plain by done.
    destruct (writeFile _ _ _ _) as [fs'|] eqn:Hw; simpl; [|done].
    assert (Hid : parse_name (storage_filename uuid originalname) = uuid).
    { apply parse_name_stored; [done|apply extname_shape]. }
    assert (Hnew : storage_filename uuid originalname ∉ children fs fileDir).
    { intros Hin. apply Hfresh, Hif. rewrite <- Hid. by apply list_elem_of_fmap_2. }
    destruct (writeFile_new_children _ _ _ _ _ _ Hnew Hw)
      as [(l1 & l2 & Hold & Hnow) Hother].
    split.
    + rewrite Hnow, fmap_app, fmap_cons, Hid.
      apply NoDup_insert_middle; rewrite <- fmap_app, <- Hold; [done|].
      intros Hin. by apply Hfresh, Hif.
    + rewrite Hother; [done|]. intros name'. apply store_children_differ.
  - destruct (Hgen canvasId eq_refl) as [Hu Hfresh].
    unfold post_canvas. rewrite path_join_plain by by apply json_name_plain.
    destruct (writeFile _ _ _ _) as [fs'|] eqn:Hw; simpl; [|done].
    assert (Hid : parse_name (canvasId +:+ ".json") = canvasId).
    { apply parse_name_stored; [done|]. right. exists "json".
      split; [done|]. split; repeat constructor; done. }
    assert (Hnew : canvasId +:+ ".json" ∉ children fs canvasDir).
    { intros Hin. apply Hfresh, Hic. rewrite <- Hid. by apply list_elem_of_fmap_2. }
    destruct (writeFile_new_children _ _ _ _ _ _ Hnew Hw)
      as [(l1 & l2 & Hold & Hnow) Hother].
    split.
    + rewrite Hother; [done|]. intros name' Heq. symmetry in Heq.
      by apply store_children_differ in Heq.
    + rewrite Hnow, fmap_app, fmap_cons, Hid.
      apply NoDup_insert_middle; rewrite <- fmap_app, <- Hold; [done|].
      intros Hin. by apply Hfresh, Hic.
  - rewrite get_canvas_fs; [done|]. unfold existsSync. by rewrite Hcd.
Qed.

(** The part of the invariant of the stores that holds: when the
    identifiers drawn are UUIDs and no identifier is drawn twice, after
    any requests every entry is named by an identifier that was drawn,
    followed by the extension of the upload or by [.json], and no two
    entries of a store have the same identifier. *)
Lemma run_distinct (reqs : list request) :
  ∀ ids fs,
    stores_ready fs → names_from ids fs → distinct_identifiers fs →
    Forall (λ req, ∀ u, generated req = Some u → is_uuid u = true) reqs →
    NoDup (omap generated reqs ++ ids) →
    stores_ready (run fs reqs)
    ∧ names_from (omap generated reqs ++ ids) (run fs reqs)
    ∧ distinct_identifiers (run fs reqs).
Proof.
  induction reqs as [|req reqs IH]; intros ids fs Hr Hn Hd Hall Hnd; [done|].
  inversion Hall as [|?? Hreq Hrest]; subst.
  assert (Hfresh : ∀ u, generated req = Some u → is_uuid u = true ∧ u ∉ ids).
  { intros u Hu. split; [by apply Hreq|]. csimpl in Hnd. rewrite Hu in Hnd.
    simpl in Hnd. apply NoDup_cons in Hnd as [Hnot _]. intros Hin. apply Hnot.
    apply elem_of_app. by right. }
  set (ids' := match generated req with Some u => u :: ids | None => ids end).
  assert (Hsub : ids ⊆ ids').
  { unfold ids'. destruct (generated req); [|done]. intros x Hx. by right. }
  assert (Hstep : ∀ u, generated req = Some u → is_uuid u = true ∧ u ∈ ids').
  { intros u Hu. split; [by apply Hreq|]. unfold ids'. rewrite Hu. left. }
  destruct (handle_names_from ids' fs req Hr (names_from_mono _ _ _ Hsub Hn) Hstep)
    as [Hr' Hn'].
  pose proof (handle_distinct ids fs req Hr Hn Hd Hfresh) as Hd'.
  assert (Hperm : omap generated (req :: reqs) ++ ids ≡ₚ omap generated reqs ++ ids').
  { csimpl. unfold ids'. destruct (generated req); [|done]. simpl.
    apply Permutation_middle. }
  destruct (IH ids' (handle fs req).1 Hr' Hn' Hd' Hrest) as (Hr2 & Hn2 & Hd2).
  { by rewrite <- Hperm. }
  simpl. split; [done|]. split; [|done].
  eapply names_from_mono; [|done]. intros x Hx. by rewrite Hperm.
Qed.

(** ** Listing the canvases *)

Lemma readdir_existsSync (fs : fsys) (dir : path) (names : list string) :
  readdir fs dir = Some names → existsSync fs dir = true.
Proof. unfold readdir, existsSync. by destruct (stat fs dir). Qed.

Lemma readdir_children (fs : fsys) (dir : path) (names : list string) :
  readdir fs dir = Some names → names = children fs dir.
Proof. unfold readdir. repeat case_match; try done. by intros [= <-]. Qed.

(** Two canvases without a [createDate] compare as equal. *)
Lemma compareFn_unkeyed (a b : json) :
  get_createDate a = Some None → get_createDate b = Some None →
  compareFn a b = Some nan.
Proof. intros Ha Hb. unfold compareFn. by rewrite Ha, Hb. Qed.

Lemma sort_insert_unkeyed (x : json) (sorted : list json) :
  get_createDate x = Some None →
  Forall (λ c, get_createDate c = Some None) sorted →
  sort_insert x sorted = Some (x :: sorted).
Proof.
  intros Hx Hs. destruct Hs as [|y rest Hy _]; simpl; [done|].
  by rewrite compareFn_unkeyed.
Qed.

(** Sorting canvases that have no [createDate] changes nothing. *)
Lemma sort_unkeyed (canvases : list json) :
  Forall (λ c, get_createDate c = Some None) canvases →
  sort canvases = Some canvases.
Proof.
  induction 1 as [|x rest Hx Hrest IH]; simpl; [done|].
  rewrite IH. by apply sort_insert_unkeyed.
Qed.

(** C3 (what the route does): the canvases come in the order of the
    directory, not newest first.
    When the canvas directory can be read, its [.json] entries parse
    and no canvas has a [createDate] property (no canvas written by
    [POST /canvas] has one unless the caller sent it), [GET /canvas]
    answers 200 with the canvases in the order in which the directory
    enumerates their entries, whatever their [createAt]. *)
Theorem get_canvas_keeps_directory_order (fs : fsys) (names : list string)
    (canvases : list json) :
  readdir fs canvasDir = Some names →
  mapM (read_canvas fs) (filter (λ file, endsWith file ".json" = true) names)
    = Some canvases →
  Forall (λ c, get_createDate c = Some None) canvases →
  get_canvas fs = (fs, Json 200 (JArr canvases)).
Proof.
  intros Hdir Hread Hkeys. unfold get_canvas.
  rewrite (readdir_existsSync _ _ _ Hdir), Hdir. simpl.
  by rewrite Hread, sort_unkeyed.
Qed.

(** C8: one entry that does not parse fails the whole listing.
    When the canvas directory can be read and one of its [.json]
    entries can be read but is not JSON, [GET /canvas] answers 500 and
    no list, whatever the other entries hold; the file system is left
    as it was. *)
Theorem get_canvas_malformed_entry (fs : fsys) (names : list string)
    (file : string) (fileData : bytes) :
  readdir fs canvasDir = Some names →
  file ∈ names →
  endsWith file ".json" = true →
  readFileSync fs (path_join canvasDir file) = Some fileData →
  JSON_parse fileData = None →
  get_canvas fs = (fs, Failure 500).
Proof.
  intros Hdir Hin Hjson Hread Hparse. unfold get_canvas.
  rewrite (readdir_existsSync _ _ _ Hdir), Hdir. simpl.
  rewrite (mapM_None_2 (read_canvas fs)); [done|].
  apply Exists_exists. exists file. split.
  - by apply list_elem_of_filter.
  - unfold read_canvas. by rewrite Hread.
Qed.

Lemma mkdir_rec_parent (fs : fsys) (s : string) (rp : list string) :
  fs_lookup fs (reverse (s :: rp)) = None →
  is_dir fs (reverse rp) = true →
  mkdir_rec fs (s :: rp) = Some (fs ++ [(reverse (s :: rp), Dir true)]).
Proof.
  intros Hnew Hparent. simpl. rewrite Hnew.
  destruct rp as [|s' rp']; [done|]. simpl.
  unfold is_dir, stat in Hparent.
  rewrite bool_decide_eq_false_2 in Hparent; last first.
  { rewrite reverse_cons. apply snoc_not_nil. }
  by destruct (fs_lookup fs (reverse (s' :: rp'))) as [[]|].
Qed.

Lemma mkdirSync_child (fs : fsys) (parent : path) (s : string) :
  fs_lookup fs (parent ++ [s]) = None →
  is_dir fs parent = true →
  mkdirSync fs (parent ++ [s]) = Some (fs ++ [(parent ++ [s], Dir true)]).
Proof.
  intros Hnew Hparent. unfold mkdirSync. rewrite reverse_snoc.
  rewrite mkdir_rec_parent; rewrite ?reverse_cons, ?reverse_involutive; done.
Qed.

(** C9: listing an absent or an empty canvas directory.
    When the canvas directory does not exist (and the directory that
    holds it does), [GET /canvas] answers 200 with the empty list and
    leaves the canvas directory created, every other entry being as it
    was; when the canvas directory exists, can be read and is empty,
    [GET /canvas] answers 200 with the empty list. *)
Theorem get_canvas_absent_or_empty (fs_absent fs_empty : fsys) :
  stat fs_absent canvasDir = None →
  is_dir fs_absent (removelast canvasDir) = true →
  stat fs_empty canvasDir = Some (Dir true) →
  children fs_empty canvasDir = [] →
  (∃ fs', get_canvas fs_absent = (fs', Json 200 (JArr []))
          ∧ stat fs' canvasDir = Some (Dir true)
          ∧ ∀ p, p ≠ canvasDir → stat fs' p = stat fs_absent p)
  ∧ get_canvas fs_empty = (fs_empty, Json 200 (JArr [])).
Proof.
  intros Habsent Hparent Hdir Hempty.
  assert (Hlook : ∀ fs, stat fs canvasDir = fs_lookup fs canvasDir).
  { intros fs. unfold stat. by rewrite bool_decide_eq_false_2 by apply canvasDir_not_root. }
  split.
  - exists (fs_absent ++ [(canvasDir, Dir true)]).
    unfold get_canvas, existsSync. rewrite Habsent. simpl.
    rewrite Hlook in Habsent.
    assert (mkdirSync fs_absent canvasDir
            = Some (fs_absent ++ [(canvasDir, Dir true)])) as ->.
    { rewrite canvasDir_eq in *. rewrite removelast_snoc in Hparent.
      by apply mkdirSync_child. }
    split; [done|]. split.
    + rewrite Hlook, fs_lookup_app, Habsent. simpl. by rewrite bool_decide_eq_true_2.
    + intros p Hp. unfold stat. case_bool_decide; [done|].
      rewrite fs_lookup_app. simpl. rewrite bool_decide_eq_false_2 by done.
      by destruct (fs_lookup fs_absent p).
  - unfold get_canvas, existsSync, readdir. rewrite Hdir. simpl.
    fold (children fs_empty canvasDir). by rewrite Hempty.
Qed.

(** ** Creating and fetching a canvas *)

(** The fields of a new canvas: [createAt] is the time of the request;
    [id] is the caller's when the caller sent one, the generated
    identifier otherwise; every other field is the caller's. *)
Lemma newCanvas_fields (canvasId now : string) (canvasData : json) (k : string) :
  own_props (newCanvas canvasId canvasData now) !! k =
    if bool_decide (k = "createAt") then Some (JStr now)
    else match own_props canvasData !! k with
         | Some v => Some v
         | None => if bool_decide (k = "id") then Some (JStr canvasId) else None
         end.
Proof.
  unfold newCanvas, spread. simpl.
  case_bool_decide as Hk; [subst k; by rewrite lookup_insert_eq|].
  rewrite lookup_insert_ne by done. rewrite lookup_union.
  destruct (own_props canvasData !! k) as [v|]; simpl.
  - by rewrite union_Some_l.
  - rewrite (left_id None _). case_bool_decide as Hid.
    + subst k. by rewrite lookup_insert_eq.
    + rewrite lookup_insert_ne by done. apply lookup_empty.
Qed.

Lemma newCanvas_caller_id (canvasId now mine : string) :
  newCanvas canvasId (JObj {[ "id" := JStr mine ]}) now
    = JObj {[ "id" := JStr mine; "createAt" := JStr now ]}.
Proof.
  reflexivity.
Qed.

Lemma post_canvas_created (fs fs' : fsys) (canvasId now : string) (pos : nat)
    (canvasData body : json) :
  post_canvas fs canvasId now pos canvasData = (fs', Json 201 body) →
  body = newCanvas canvasId canvasData now
  ∧ writeFile fs pos (path_join canvasDir (canvasId +:+ ".json")) (JSON_stringify body)
    = Some fs'.
Proof.
  unfold post_canvas. destruct (writeFile _ _ _ _) as [fs1|] eqn:Hw; [|done].
  intros [= <- <-]. done.
Qed.

(** C1 (what the route does): the caller's [id] wins over the generated one.
    When the document sent to [POST /canvas] is [{ id: mine }] and the
    route answers 201, the structure it returns and writes to
    [{canvasId}.json] is [{ id: mine, createAt: now }]: [createAt] is
    the system's, [id] is the caller's and not the generated
    identifier. *)
Theorem post_canvas_caller_id (fs fs' : fsys) (canvasId now mine : string)
    (pos : nat) (body : json) :
  post_canvas fs canvasId now pos (JObj {[ "id" := JStr mine ]}) = (fs', Json 201 body) →
  body = JObj {[ "id" := JStr mine; "createAt" := JStr now ]}
  ∧ ∃ r, stat fs' (path_join canvasDir (canvasId +:+ ".json"))
         = Some (File r (JSON_stringify body)).
Proof.
  intros H. apply post_canvas_created in H as [-> Hw].
  split; [apply newCanvas_caller_id|].
  by apply writeFile_stat_eq in Hw.
Qed.

(** C2 (what the route does): an entry whose [id] is not its file name.
    When the document sent to [POST /canvas] is [{ id: mine }] with
    [mine] different from the generated identifier, the route answers
    201 and the text written parses back to what was written, the
    canvas directory has an entry [{canvasId}.json] whose [id] field is
    [mine]. *)
Theorem stored_canvas_id_mismatch (fs fs' : fsys) (canvasId now mine : string)
    (pos : nat) (body : json) :
  is_uuid canvasId = true →
  mine ≠ canvasId →
  post_canvas fs canvasId now pos (JObj {[ "id" := JStr mine ]}) = (fs', Json 201 body) →
  JSON_parse (JSON_stringify body) = Some body →
  (canvasId +:+ ".json") ∈ children fs' canvasDir
  ∧ ∃ r fileData canvas,
      stat fs' (canvasDir ++ [canvasId +:+ ".json"]) = Some (File r fileData)
      ∧ JSON_parse fileData = Some canvas
      ∧ own_props canvas !! "id" = Some (JStr mine)
      ∧ own_props canvas !! "id" ≠ Some (JStr canvasId).
Proof.
  intros Hu Hne H Hrt. apply post_canvas_created in H as [Hbody Hw].
  rewrite path_join_plain in Hw by by apply json_name_plain.
  destruct (writeFile_stat_eq _ _ _ _ _ Hw) as [r Hr].
  assert (Hid : own_props body !! "id" = Some (JStr mine)).
  { rewrite Hbody, newCanvas_fields. simpl. by rewrite lookup_singleton_eq. }
  split.
  - apply elem_of_children. exists (File r (JSON_stringify body)).
    rewrite stat_child in Hr. by apply fs_lookup_Some_elem.
  - exists r, (JSON_stringify body), body. repeat split; [done..|].
    rewrite Hid. by intros [= ?].
Qed.

(** C4 (what the routes do): the returned [id] does not find the canvas.
    When the document sent to [POST /canvas] is [{ id: mine }], the
    route answers 201 and no file [{mine}.json] was there, the
    structure returned has [mine] for [id], and [GET /canvas/:id] with
    that [id] answers 404 instead of the structure. *)
Theorem get_canvas_id_after_caller_id (fs fs' : fsys) (canvasId now mine : string)
    (pos : nat) (body : json) :
  post_canvas fs canvasId now pos (JObj {[ "id" := JStr mine ]}) = (fs', Json 201 body) →
  path_join canvasDir (mine +:+ ".json") ≠ path_join canvasDir (canvasId +:+ ".json") →
  existsSync fs (path_join canvasDir (mine +:+ ".json")) = false →
  own_props body !! "id" = Some (JStr mine)
  ∧ get_canvas_id fs' mine = Failure 404.
Proof.
  intros H Hne Hnew. apply post_canvas_created in H as [Hbody Hw]. split.
  - rewrite Hbody, newCanvas_fields. simpl. by rewrite lookup_singleton_eq.
  - unfold get_canvas_id, existsSync in *.
    rewrite (writeFile_stat_ne _ _ _ _ _ _ Hw) by done.
    by destruct (stat fs _).
Qed.

(** X4: a canvas created without an [id] of the caller's is found again.
    When the canvas directory is a directory, the identifier drawn is a
    UUID with no file [{canvasId}.json] there yet, the caller sends no
    [id] and the text written parses back to the canvas, [POST /canvas]
    answers 201 with a canvas that has the generated identifier for
    [id] and the time of the request for [createAt] and keeps the
    caller's other fields, and [GET /canvas/:id] with the generated
    identifier then answers 200 with that canvas. *)
Lemma create_then_get_by_id (fs : fsys) (canvasId now : string) (pos : nat)
    (canvasData : json) :
  is_uuid canvasId = true →
  is_dir fs canvasDir = true →
  existsSync fs (path_join canvasDir (canvasId +:+ ".json")) = false →
  own_props canvasData !! "id" = None →
  JSON_parse (JSON_stringify (newCanvas canvasId canvasData now))
    = Some (newCanvas canvasId canvasData now) →
  ∃ fs' body,
    post_canvas fs canvasId now pos canvasData = (fs', Json 201 body)
    ∧ own_props body !! "id" = Some (JStr canvasId)
    ∧ own_props body !! "createAt" = Some (JStr now)
    ∧ (∀ k, k ≠ "createAt" → is_Some (own_props canvasData !! k) →
            own_props body !! k = own_props canvasData !! k)
    ∧ get_canvas_id fs' canvasId = Json 200 body.
Proof.
  intros Hu Hdir Hnew Hnoid Hrt.
  rewrite path_join_plain in Hnew by by apply json_name_plain.
  assert (Hl : fs_lookup fs (canvasDir ++ [canvasId +:+ ".json"]) = None).
  { unfold existsSync in Hnew. rewrite stat_child in Hnew.
    by destruct (fs_lookup fs _). }
  exists (insert_at pos (canvasDir ++ [canvasId +:+ ".json"],
                         File true (JSON_stringify (newCanvas canvasId canvasData now))) fs),
    (newCanvas canvasId canvasData now).
  split; [|repeat split].
  - unfold post_canvas. rewrite path_join_plain by by apply json_name_plain.
    unfold writeFile.
    rewrite valid_path_snoc, valid_name_json, stat_child, Hl, removelast_snoc by done.
    by rewrite Hdir.
  - by rewrite newCanvas_fields, Hnoid.
  - by rewrite newCanvas_fields.
  - intros k Hk [v Hv]. rewrite newCanvas_fields, Hv.
    by rewrite bool_decide_eq_false_2.
  - unfold get_canvas_id, readFileSync, existsSync.
    rewrite path_join_plain by by apply json_name_plain.
    rewrite stat_child, fs_lookup_insert_at_eq by done. by rewrite Hrt.
Qed.

Lemma split_up_file (s : string) :
  split "/"%char ("../file/" +:+ s) = ".." :: "file" :: split "/"%char s.
Proof. unfold String.app. simpl. by destruct (split "/"%char s). Qed.

(** C10: [GET /canvas/:id] reads whatever path the identifier leads to.
    For every string [id] the route answers from the entry at
    [path.join(canvasDir, id + ".json")] alone: 404 when there is none,
    its parsed contents when it is a readable file that parses, 500
    otherwise. So after a file [data.json] that holds JSON was uploaded
    to the file store under the identifier [uuid], the identifier
    [../file/{uuid}] resolves to that entry of the file directory,
    outside the canvas directory, and the route answers 200 with its
    contents rather than 404. *)
Theorem get_canvas_id_unvalidated (fs : fsys) (uuid : string) (pos : nat)
    (content : bytes) (canvas : json) :
  is_uuid uuid = true →
  stat fs fileDir = Some (Dir true) →
  (∀ name, name ∈ children fs fileDir → startsWith name uuid = false) →
  JSON_parse content = Some canvas →
  (∀ fs1 id,
     get_canvas_id fs1 id =
       match stat fs1 (path_join canvasDir (id +:+ ".json")) with
       | None => Failure 404
       | Some (File true fileData) =>
           match JSON_parse fileData with
           | Some c => Json 200 c
           | None => Failure 500
           end
       | Some _ => Failure 500
       end)
  ∧ let fs' := (post_upload fs uuid pos (Some ("data.json", content))).1 in
    let id := "../file/" +:+ uuid in
    path_join canvasDir (id +:+ ".json") = fileDir ++ [uuid +:+ ".json"]
    ∧ ¬ canvasDir `prefix_of` path_join canvasDir (id +:+ ".json")
    ∧ children fs' canvasDir = children fs canvasDir
    ∧ get_canvas_id fs' id = Json 200 canvas.
Proof.
  intros Hu Hdir Hfresh Hparse.
  assert (Hgen : ∀ fs1 id,
     get_canvas_id fs1 id =
       match stat fs1 (path_join canvasDir (id +:+ ".json")) with
       | None => Failure 404
       | Some (File true fileData) =>
           match JSON_parse fileData with
           | Some c => Json 200 c
           | None => Failure 500
           end
       | Some _ => Failure 500
       end).
  { intros fs1 id. unfold get_canvas_id, existsSync, readFileSync.
    destruct (stat fs1 _) as [[r|[] fileData]|]; simpl; try done. }
  split; [exact Hgen|]. cbv zeta.
  assert (Hpath : path_join canvasDir (("../file/" +:+ uuid) +:+ ".json")
                  = fileDir ++ [uuid +:+ ".json"]).
  { replace (("../file/" +:+ uuid) +:+ ".json") with ("../file/" +:+ (uuid +:+ ".json")).
    - unfold path_join. rewrite split_up_file.
      rewrite split_no_sep; last first.
      { by destruct (json_name_plain uuid Hu) as [? _]. }
      destruct (json_name_plain uuid Hu) as (_ & H1 & H2 & H3).
      simpl. unfold normalize_step at 1. simpl.
      unfold normalize_step. simpl.
      rewrite !bool_decide_eq_false_2 by done.
      rewrite canvasDir_eq, removelast_snoc, fileDir_eq. done.
    - apply chars_inj. by rewrite !chars_app, app_assoc. }
  destruct (post_upload_fresh fs uuid pos "data.json" content Hu Hdir Hfresh)
    as [Hnew Hup].
  { change (storage_filename uuid "data.json") with (uuid +:+ ".json").
    by apply valid_name_json. }
  change (storage_filename uuid "data.json") with (uuid +:+ ".json") in *.
  rewrite Hup. cbn [fst].
  split; [done|]. split; [|split].
  - rewrite Hpath, canvasDir_eq, fileDir_eq. intros [k Hk].
    rewrite <- !app_assoc in Hk. apply app_inv_head in Hk. by destruct k.
  - rewrite children_insert_at.
    match goal with
    | |- context [child_name ?d ?e] => assert (child_name d e = None) as ->
    end.
    { unfold child_name. cbn [fst]. rewrite last_snoc.
      rewrite bool_decide_eq_false_2; [done|apply store_children_differ]. }
    symmetry. apply children_take_drop.
  - rewrite Hgen, Hpath, stat_child, fs_lookup_insert_at_eq by done.
    by rewrite Hparse.
Qed.

(** ** Creating directories *)

(** A successful recursive [mkdir] only appends readable directories,
    each at a path that leads to the one asked for and was not there;
    the directory asked for is a directory afterwards. *)
Lemma mkdir_rec_spec (rp : list string) :
  ∀ fs fs',
    mkdir_rec fs rp = Some fs' →
    ∃ added,
      fs' = fs ++ added
      ∧ Forall (λ e : path * node, e.2 = Dir true ∧ e.1 `prefix_of` reverse rp) added
      ∧ is_dir fs' (reverse rp) = true.
Proof.
  induction rp as [|s rp IH]; intros fs fs' H; simpl in H.
  - injection H as <-. exists []. by rewrite app_nil_r.
  - assert (Hne : reverse (s :: rp) ≠ []).
    { rewrite reverse_cons. apply snoc_not_nil. }
    destruct (fs_lookup fs (reverse (s :: rp))) as [[r|r c]|] eqn:Hl; [|done|].
    + injection H as <-. exists []. rewrite app_nil_r. split; [done|].
      split; [constructor|]. unfold is_dir, stat.
      by rewrite bool_decide_eq_false_2, Hl.
    + destruct (mkdir_rec fs rp) as [fs1|] eqn:Hrec; [|done]. injection H as <-.
      destruct (IH fs fs1 Hrec) as (added & -> & Hadded & _).
      exists (added ++ [(reverse (s :: rp), Dir true)]).
      split; [by rewrite app_assoc|]. split.
      * apply Forall_app. split.
        -- eapply Forall_impl; [exact Hadded|]. intros e [He Hp]. split; [done|].
           rewrite reverse_cons. by apply prefix_app_r.
        -- by repeat constructor.
      * unfold is_dir, stat. rewrite bool_decide_eq_false_2 by done.
        rewrite !fs_lookup_app, Hl.
        assert (fs_lookup added (reverse (s :: rp)) = None) as ->.
        { clear -Hadded. induction Hadded as [|[q n] added [_ Hq] _ IHa]; [done|].
          simpl in *. rewrite bool_decide_eq_false_2; [done|].
          intros ->. apply prefix_length in Hq.
          rewrite reverse_cons, length_app in Hq. simpl in Hq. lia. }
        simpl. by rewrite bool_decide_eq_true_2.
Qed.

Lemma fs_lookup_app_Some (fs added : fsys) (p : path) (n : node) :
  fs_lookup fs p = Some n → fs_lookup (fs ++ added) p = Some n.
Proof. intros H. by rewrite fs_lookup_app, H. Qed.

Lemma stat_app_Some (fs added : fsys) (p : path) (n : node) :
  stat fs p = Some n → stat (fs ++ added) p = Some n.
Proof.
  unfold stat. case_bool_decide; [done|]. apply fs_lookup_app_Some.
Qed.

(** What [ensure_dir] leaves: the path exists, it is a readable
    directory when it was missing, and the entries that were there are
    followed by new directories only. *)
Lemma ensure_dir_spec (fs fs' : fsys) (dir : path) :
  ensure_dir fs dir = Some fs' →
  existsSync fs' dir = true
  ∧ (existsSync fs dir = false → stat fs' dir = Some (Dir true))
  ∧ ∃ added, fs' = fs ++ added
             ∧ Forall (λ e : path * node, e.2 = Dir true ∧ e.1 `prefix_of` dir) added.
Proof.
  unfold ensure_dir. destruct (existsSync fs dir) eqn:He; simpl.
  - intros [= <-]. split; [done|]. split; [done|].
    exists []. by rewrite app_nil_r.
  - unfold mkdirSync. intros H.
    destruct (mkdir_rec_spec _ _ _ H) as (added & -> & Hadded & Hdir).
    rewrite reverse_involutive in *.
    assert (Hst : stat (fs ++ added) dir = Some (Dir true)).
    { unfold existsSync in He. unfold is_dir in Hdir. unfold stat in *.
      case_bool_decide; [done|].
      destruct (fs_lookup fs dir) eqn:Hl; [done|].
      rewrite fs_lookup_app, Hl in *.
      assert (Hall : ∀ n, fs_lookup added dir = Some n → n = Dir true).
      { clear -Hadded. induction Hadded as [|[q m] added [Hm _] _ IHa]; [done|].
        simpl in *. intros n. case_bool_decide; [|apply IHa].
        intros [= <-]. done. }
      destruct (fs_lookup added dir) as [n|]; [|done]. by rewrite (Hall n). }
    split; [unfold existsSync; by rewrite Hst|]. split; [done|].
    by exists added.
Qed.

(** X13: the directories the application needs when it starts.
    When the directory that holds the two stores exists, the two checks
    made when the module is loaded succeed; afterwards both store paths
    exist, a store that was missing is a readable directory, every entry
    that was there is unchanged, and running the checks again changes
    nothing. *)
Theorem startup_ready (fs : fsys) :
  is_dir fs (removelast dirname) = true →
  ∃ fs',
    startup fs = Some fs'
    ∧ existsSync fs' fileDir = true
    ∧ existsSync fs' canvasDir = true
    ∧ (existsSync fs fileDir = false → stat fs' fileDir = Some (Dir true))
    ∧ (existsSync fs canvasDir = false → stat fs' canvasDir = Some (Dir true))
    ∧ (∀ p n, stat fs p = Some n → stat fs' p = Some n)
    ∧ startup fs' = Some fs'.
Proof.
  intros Hparent.
  assert (Hensure : ∀ fs1 s, is_dir fs1 (removelast dirname) = true →
            ∃ fs2, ensure_dir fs1 (removelast dirname ++ [s]) = Some fs2).
  { intros fs1 s Hp. unfold ensure_dir, existsSync. rewrite stat_child.
    destruct (fs_lookup fs1 _) eqn:Hl; simpl; [by eexists|].
    rewrite mkdirSync_child by done. by eexists. }
  destruct (Hensure fs "file" Hparent) as [fs1 H1].
  fold fileDir in H1. rewrite <- fileDir_eq in H1.
  destruct (ensure_dir_spec _ _ _ H1) as (He1 & Hnew1 & added1 & -> & Hadd1).
  assert (Hparent1 : is_dir (fs ++ added1) (removelast dirname) = true).
  { unfold is_dir in *. destruct (stat fs (removelast dirname)) as [[r|]|] eqn:Hs; try done.
    by rewrite (stat_app_Some _ _ _ _ Hs). }
  destruct (Hensure (fs ++ added1) "canvas" Hparent1) as [fs2 H2].
  rewrite <- canvasDir_eq in H2.
  destruct (ensure_dir_spec _ _ _ H2) as (He2 & Hnew2 & added2 & -> & Hadd2).
  exists ((fs ++ added1) ++ added2).
  assert (Hkeep : ∀ (l k : fsys) p, existsSync l p = true → existsSync (l ++ k) p = true).
  { intros l k p. unfold existsSync. destruct (stat l p) as [n|] eqn:Hs; [|done].
    by rewrite (stat_app_Some _ _ _ _ Hs). }
  split; [unfold startup; by rewrite H1|].
  split; [by apply Hkeep|]. split; [done|].
  split.
  { intros Habs. apply stat_app_Some. by apply Hnew1. }
  split.
  { intros Habs. apply Hnew2. unfold existsSync in *. unfold stat in *.
    rewrite bool_decide_eq_false_2 in * by apply canvasDir_not_root.
    rewrite fs_lookup_app.
    destruct (fs_lookup fs canvasDir) eqn:Hl; [done|].
    assert (fs_lookup added1 canvasDir = None) as ->; [|done].
    clear -Hadd1. induction Hadd1 as [|[q m] added [_ Hq] _ IHa]; [done|].
    simpl in *. rewrite bool_decide_eq_false_2; [done|]. intros ->.
    destruct Hq as [k Hk]. rewrite fileDir_eq, canvasDir_eq in Hk.
    rewrite <- app_assoc in Hk. apply app_inv_head in Hk. by destruct k. }
  split.
  { intros p n Hs. by do 2 apply stat_app_Some. }
  unfold startup, ensure_dir. rewrite (Hkeep _ _ _ He1). simpl. by rewrite He2.
Qed.

(** X10: listing never touches what is stored.
    Whatever the file system holds, after [GET /canvas] the entries that
    were there are all there, unchanged and in the same order, followed
    at most by new directories on the way to the canvas directory: the
    route writes no file and removes nothing. *)
Theorem get_canvas_adds_only_directories (fs : fsys) :
  ∃ added,
    (get_canvas fs).1 = fs ++ added
    ∧ Forall (λ e : path * node, e.2 = Dir true ∧ e.1 `prefix_of` canvasDir) added.
Proof.
  unfold get_canvas. destruct (existsSync fs canvasDir) eqn:He; simpl.
  - exists []. rewrite app_nil_r. split; [|constructor]. by repeat case_match.
  - destruct (mkdirSync fs canvasDir) as [fs'|] eqn:Hm; simpl.
    + unfold mkdirSync in Hm.
      destruct (mkdir_rec_spec _ _ _ Hm) as (added & -> & Hadded & _).
      rewrite reverse_involutive in Hadded. by exists added.
    + exists []. rewrite app_nil_r. split; [done|constructor].
Qed.

(** ** What one request writes *)

(** X1: an upload writes one entry, directly in the file directory.
    Whatever the original name (separators and [..] included), when the
    identifier drawn is a UUID the stored name is a single path segment;
    the upload either fails, and the file system is as it was, or it
    answers 200 with that UUID, the entry of that name in the file
    directory holds the uploaded bytes, and every other path is as it
    was. *)
Theorem post_upload_effect (fs fs' : fsys) (uuid : string) (pos : nat)
    (originalname : string) (content : bytes) (resp : response) :
  is_uuid uuid = true →
  post_upload fs uuid pos (Some (originalname, content)) = (fs', resp) →
  plain (storage_filename uuid originalname)
  ∧ ((resp = Unhandled ∧ fs' = fs)
     ∨ (resp = Json 200 (upload_body uuid)
        ∧ (∃ r, stat fs' (fileDir ++ [storage_filename uuid originalname])
                = Some (File r content))
        ∧ ∀ p, p ≠ fileDir ++ [storage_filename uuid originalname] →
               stat fs' p = stat fs p)).
Proof.
  intros Hu H.
  pose proof (storage_filename_plain uuid originalname Hu) as Hplain.
  split; [done|]. unfold post_upload in H.
  rewrite path_join_plain in H by done.
  destruct (writeFile _ _ _ _) as [fs1|] eqn:Hw.
  - right. injection H as <- <-. split.
    + do 2 f_equal. apply parse_name_stored; [done|apply extname_shape].
    + split; [by apply writeFile_stat_eq in Hw|].
      intros p Hp. by apply (writeFile_stat_ne _ _ _ _ _ _ Hw).
  - left. by injection H as <- <-.
Qed.

(** X2: a creation writes one entry, directly in the canvas directory.
    When the identifier drawn is a UUID, [POST /canvas] either fails with
    500, and the file system is as it was, or it answers 201 with the new
    canvas, the entry [{canvasId}.json] of the canvas directory holds the
    text of that canvas, and every other path is as it was. *)
Theorem post_canvas_effect (fs fs' : fsys) (canvasId now : string) (pos : nat)
    (canvasData : json) (resp : response) :
  is_uuid canvasId = true →
  post_canvas fs canvasId now pos canvasData = (fs', resp) →
  (resp = Failure 500 ∧ fs' = fs)
  ∨ (resp = Json 201 (newCanvas canvasId canvasData now)
     ∧ (∃ r, stat fs' (canvasDir ++ [canvasId +:+ ".json"])
             = Some (File r (JSON_stringify (newCanvas canvasId canvasData now))))
     ∧ ∀ p, p ≠ canvasDir ++ [canvasId +:+ ".json"] → stat fs' p = stat fs p).
Proof.
  intros Hu H. unfold post_canvas in H.
  rewrite path_join_plain in H by by apply json_name_plain.
  destruct (writeFile _ _ _ _) as [fs1|] eqn:Hw.
  - right. injection H as <- <-. split; [done|]. split.
    + by apply writeFile_stat_eq in Hw.
    + intros p Hp. by apply (writeFile_stat_ne _ _ _ _ _ _ Hw).
  - left. by injection H as <- <-.
Qed.

(** X3: the fields of a created canvas.
    For every document sent, the canvas created is an object in which
    [createAt] is the time of the request, every other field of the
    document is kept with its value, [id] is the generated identifier
    exactly when the document has no [id] of its own, and there is no
    other field. *)
Theorem created_canvas_fields (canvasId now : string) (canvasData : json) :
  ∃ m,
    newCanvas canvasId canvasData now = JObj m
    ∧ m !! "createAt" = Some (JStr now)
    ∧ (∀ k v, k ≠ "createAt" → own_props canvasData !! k = Some v → m !! k = Some v)
    ∧ (own_props canvasData !! "id" = None → m !! "id" = Some (JStr canvasId))
    ∧ (∀ k, k ≠ "createAt" → k ≠ "id" → own_props canvasData !! k = None →
            m !! k = None).
Proof.
  exists (own_props (newCanvas canvasId canvasData now)).
  split; [done|]. split; [by rewrite newCanvas_fields|]. split.
  - intros k v Hk Hv. rewrite newCanvas_fields, Hv.
    by rewrite bool_decide_eq_false_2.
  - split.
    + intros Hid. by rewrite newCanvas_fields, Hid.
    + intros k Hc Hi Hk. rewrite newCanvas_fields, Hk.
      by rewrite !bool_decide_eq_false_2.
Qed.

(** X12: [GET /file/:fileId] never reads outside the file directory.
    When the names of the file directory have no separator, whatever
    string is given for [fileId], a file that is sent is the readable
    entry of the file directory whose name is the first one that starts
    with [fileId]. *)
Theorem get_file_stays_in_store (fs : fsys) (names : list string)
    (fileId : string) (content : bytes) :
  readdir fs fileDir = Some names →
  Forall plain names →
  get_file fs fileId = Sent content →
  ∃ before name after,
    names = before ++ name :: after
    ∧ Forall (λ other, startsWith other fileId = false) before
    ∧ startsWith name fileId = true
    ∧ stat fs (fileDir ++ [name]) = Some (File true content).
Proof.
  intros Hdir Hplain H. unfold get_file in H. rewrite Hdir in H.
  destruct (find _ names) as [target|] eqn:Hfind; [|done].
  assert (Hsplit : ∃ before after,
            names = before ++ target :: after
            ∧ Forall (λ other, startsWith other fileId = false) before
            ∧ startsWith target fileId = true).
  { clear -Hfind. induction names as [|x names IH]; [done|]. simpl in Hfind.
    destruct (startsWith x fileId) eqn:Hx.
    - injection Hfind as ->. by exists [], names.
    - destruct (IH Hfind) as (before & after & -> & Hb & Ht).
      exists (x :: before), after. split; [done|]. split; [by constructor|done]. }
  destruct Hsplit as (before & after & -> & Hb & Ht).
  exists before, target, after. split; [done|]. split; [done|]. split; [done|].
  rewrite Forall_app, Forall_cons in Hplain. destruct Hplain as (_ & Hp & _).
  destruct target as [|c0 rest]; [done|].
  rewrite path_join_plain in H by done. unfold sendFile, readFileSync in H.
  destruct (stat fs _) as [[r|[] c]|]; try done. by injection H as ->.
Qed.

(** ** What later requests leave alone *)

Lemma writeFile_children_cases (fs fs' : fsys) (pos : nat) (p dir : path)
    (data : bytes) :
  writeFile fs pos p data = Some fs' →
  children fs' dir = children fs dir
  ∨ ∃ name l1 l2, p = dir ++ [name]
                  ∧ children fs dir = l1 ++ l2
                  ∧ children fs' dir = l1 ++ name :: l2.
Proof.
  unfold writeFile. intros H. destruct (valid_path p); [|done].
  destruct (stat fs p) as [[r|r c]|] eqn:Hl; [done| |].
  - injection H as <-. left. apply children_set_content.
  - destruct (is_dir fs (removelast p)); [|done]. injection H as <-.
    rewrite children_insert_at, (children_take_drop fs pos dir).
    destruct (child_name dir (p, File true data)) as [name|] eqn:Hc.
    + right. apply child_name_Some in Hc. by eexists name, _, _.
    + by left.
Qed.

Lemma find_insert_other {A} (f : A → bool) (l1 l2 : list A) (x : A) :
  f x = false → find f (l1 ++ x :: l2) = find f (l1 ++ l2).
Proof.
  intros Hx. induction l1 as [|y l1 IH]; simpl; [by rewrite Hx|].
  by destruct (f y).
Qed.

(** Two stored names that start with different identifiers differ, and
    neither starts with the identifier of the other. *)
Lemma stored_name_other (u v e : string) :
  is_uuid u = true → is_uuid v = true → v ≠ u → startsWith (v +:+ e) u = false.
Proof.
  intros Hu Hv Hne. destruct (startsWith (v +:+ e) u) eqn:Hs; [|done].
  apply startsWith_same_length in Hs; [by subst|].
  by rewrite !is_uuid_length.
Qed.

(** [GET /file/:fileId] depends on the listing of the file directory and
    on the entry found only. *)
Lemma get_file_same (fs fs' : fsys) (fileId : string) :
  stat fs' fileDir = stat fs fileDir →
  find (λ file, startsWith file fileId) (children fs' fileDir)
    = find (λ file, startsWith file fileId) (children fs fileDir) →
  (∀ target, find (λ file, startsWith file fileId) (children fs fileDir) = Some target →
             stat fs' (path_join fileDir target) = stat fs (path_join fileDir target)) →
  get_file fs' fileId = get_file fs fileId.
Proof.
  intros Hdir Hfind Htarget. unfold get_file, readdir. rewrite Hdir.
  destruct (stat fs fileDir) as [[[]|]|]; try done.
  fold (children fs' fileDir). fold (children fs fileDir). rewrite Hfind.
  destruct (find _ (children fs fileDir)) as [[|c0 rest]|] eqn:Hf; try done.
  unfold sendFile, readFileSync. by rewrite (Htarget _ eq_refl).
Qed.

Lemma find_Some_elem {A} (f : A → bool) (l : list A) (x : A) :
  find f l = Some x → x ∈ l ∧ f x = true.
Proof.
  induction l as [|y l IH]; simpl; [done|]. destruct (f y) eqn:Hy.
  - intros [= ->]. split; [left|done].
  - intros H. destruct (IH H). split; [by right|done].
Qed.

(** Serving a request that draws another identifier leaves what the two
    lookups answer for [u] as it was. *)
Lemma handle_keeps_lookups (ids : list string) (fs : fsys) (req : request)
    (u : string) :
  stores_ready fs → names_from ids fs → is_uuid u = true →
  (∀ v, generated req = Some v → is_uuid v = true ∧ v ≠ u) →
  get_file (handle fs req).1 u = get_file fs u
  ∧ get_canvas_id (handle fs req).1 u = get_canvas_id fs u.
Proof.
  intros [Hfd Hcd] [Hf Hc] Hu Hgen.
  assert (Hcanvas : ∀ fs', stat fs' (canvasDir ++ [u +:+ ".json"])
                           = stat fs (canvasDir ++ [u +:+ ".json"]) →
                           get_canvas_id fs' u = get_canvas_id fs u).
  { intros fs' Hs. unfold get_canvas_id, existsSync, readFileSync.
    rewrite path_join_plain by by apply json_name_plain. by rewrite Hs. }
  assert (Htarget : ∀ target,
            find (λ file, startsWith file u) (children fs fileDir) = Some target →
            path_join fileDir target = fileDir ++ [target]
            ∧ startsWith target u = true).
  { intros target Ht. apply find_Some_elem in Ht as [Hin Hs]. split; [|done].
    destruct (Hf target Hin) as (w & _ & Hw & originalname & ->).
    apply path_join_plain. by apply storage_filename_plain. }
  destruct req as [uuid pos [[originalname content]|]|fileId|canvasId now pos d| |id];
    simpl; try done.
  - destruct (Hgen uuid eq_refl) as [Hv Hne].
    pose proof (storage_filename_plain uuid originalname Hv) as Hplain.
    rewrite path_join_plain by done.
    destruct (writeFile _ _ _ _) as [fs'|] eqn:Hw; simpl; [|done].
    assert (Hother : startsWith (storage_filename uuid originalname) u = false).
    { by apply stored_name_other. }
    split.
    + apply get_file_same.
      * apply (writeFile_stat_ne _ _ _ _ _ _ Hw), dir_ne_child.
      * destruct (writeFile_children_cases _ _ _ _ fileDir _ Hw)
          as [->|(name & l1 & l2 & Hp & -> & ->)]; [done|].
        apply app_inj_tail in Hp as [_ <-]. by apply find_insert_other.
      * intros target Ht. destruct (Htarget target Ht) as [-> Hs].
        apply (writeFile_stat_ne _ _ _ _ _ _ Hw). intros Heq.
        apply app_inj_tail in Heq as [_ ->]. by rewrite Hother in Hs.
    + apply Hcanvas, (writeFile_stat_ne _ _ _ _ _ _ Hw). intros Heq.
      symmetry in Heq. by apply store_children_differ in Heq.
  - destruct (Hgen canvasId eq_refl) as [Hv Hne].
    unfold post_canvas. rewrite path_join_plain by by apply json_name_plain.
    destruct (writeFile _ _ _ _) as [fs'|] eqn:Hw; simpl; [|done].
    split.
    + apply get_file_same.
      * apply (writeFile_stat_ne _ _ _ _ _ _ Hw), fileDir_ne_canvas_child.
      * destruct (writeFile_children_cases _ _ _ _ fileDir _ Hw)
          as [->|(name & l1 & l2 & Hp & _)]; [done|].
        symmetry in Hp. by apply store_children_differ in Hp.
      * intros target Ht. destruct (Htarget target Ht) as [-> Hs].
        apply (writeFile_stat_ne _ _ _ _ _ _ Hw), store_children_differ.
    + apply Hcanvas, (writeFile_stat_ne _ _ _ _ _ _ Hw). intros Heq.
      apply app_inj_tail in Heq as [_ Heq]. apply app_inv_suffix in Heq.
      by subst.
  - rewrite get_canvas_fs; [done|]. unfold existsSync. by rewrite Hcd.
Qed.

Lemma run_keeps_lookups (reqs : list request) (u : string) :
  ∀ ids fs,
    stores_ready fs → names_from ids fs → is_uuid u = true →
    Forall (λ req, ∀ v, generated req = Some v → is_uuid v = true) reqs →
    u ∉ omap generated reqs →
    get_file (run fs reqs) u = get_file fs u
    ∧ get_canvas_id (run fs reqs) u = get_canvas_id fs u.
Proof.
  induction reqs as [|req reqs IH]; intros ids fs Hr Hn Hu Hall Hnot; [done|].
  inversion Hall as [|?? Hreq Hrest]; subst.
  assert (Hgen : ∀ v, generated req = Some v → is_uuid v = true ∧ v ≠ u).
  { intros v Hv. split; [by apply Hreq|]. intros ->. apply Hnot.
    csimpl. rewrite Hv. left. }
  assert (Hnot' : u ∉ omap generated reqs).
  { intros Hin. apply Hnot. csimpl. destruct (generated req); [by right|done]. }
  destruct (handle_keeps_lookups ids fs req u Hr Hn Hu Hgen) as [Hg1 Hg2].
  set (ids' := match generated req with Some v => v :: ids | None => ids end).
  assert (Hsub : ids ⊆ ids').
  { unfold ids'. destruct (generated req); [|done]. intros x Hx. by right. }
  assert (Hstep : ∀ v, generated req = Some v → is_uuid v = true ∧ v ∈ ids').
  { intros v Hv. split; [by apply Hreq|]. unfold ids'. rewrite Hv. left. }
  destruct (handle_names_from ids' fs req Hr (names_from_mono _ _ _ Hsub Hn) Hstep)
    as [Hr' Hn'].
  destruct (IH ids' (handle fs req).1 Hr' Hn' Hu Hrest Hnot') as [H1 H2].
  simpl. rewrite H1, H2. done.
Qed.

Lemma run_app (fs : fsys) (reqs1 reqs2 : list request) :
  run fs (reqs1 ++ reqs2) = run (run fs reqs1) reqs2.
Proof. unfold run. apply fold_left_app. Qed.

Lemma run_from_empty (fs0 : fsys) (reqs : list request) :
  stores_ready fs0 →
  children fs0 fileDir = [] →
  children fs0 canvasDir = [] →
  Forall (λ req, ∀ u, generated req = Some u → is_uuid u = true) reqs →
  stores_ready (run fs0 reqs) ∧ names_from (omap generated reqs) (run fs0 reqs).
Proof.
  intros Hready Hf0 Hc0 Hall.
  apply run_names_from; [done| |].
  - split; intros name Hin; [rewrite Hf0 in Hin|rewrite Hc0 in Hin];
      by apply elem_of_nil in Hin.
  - apply Forall_forall. intros req Hreq u Hu. split.
    + rewrite Forall_forall in Hall. by apply (Hall req).
    + apply list_elem_of_omap. by exists req.
Qed.

(** X6: requests for other identifiers change no lookup.
    Start with the two stores empty and readable and serve requests, each
    drawing a UUID. For every UUID [u], what [GET /file/u] and
    [GET /canvas/u] answer after some requests is what they still answer
    after any further requests that do not draw [u]. *)
Theorem later_requests_keep_lookups (fs0 : fsys) (reqs later : list request)
    (u : string) :
  stores_ready fs0 →
  children fs0 fileDir = [] →
  children fs0 canvasDir = [] →
  Forall (λ req, ∀ v, generated req = Some v → is_uuid v = true) (reqs ++ later) →
  is_uuid u = true →
  u ∉ omap generated later →
  get_file (run fs0 (reqs ++ later)) u = get_file (run fs0 reqs) u
  ∧ get_canvas_id (run fs0 (reqs ++ later)) u = get_canvas_id (run fs0 reqs) u.
Proof.
  intros Hready Hf0 Hc0 Hall Hu Hnot. apply Forall_app in Hall as [Hall1 Hall2].
  destruct (run_from_empty fs0 reqs Hready Hf0 Hc0 Hall1) as [Hr Hn].
  rewrite run_app. by apply (run_keeps_lookups later u (omap generated reqs)).
Qed.

Lemma get_file_fresh_entry (fs : fsys) (pos : nat) (fileId name : string)
    (content : bytes) :
  stat fs fileDir = Some (Dir true) →
  plain name →
  startsWith name fileId = true →
  (∀ other, other ∈ children fs fileDir → startsWith other fileId = false) →
  fs_lookup fs (fileDir ++ [name]) = None →
  get_file (insert_at pos (fileDir ++ [name], File true content) fs) fileId
    = Sent content.
Proof.
  intros Hdir Hplain Hstarts Hfresh Hnew. unfold get_file, readdir, stat.
  rewrite bool_decide_eq_false_2 by apply fileDir_not_root.
  rewrite fs_lookup_insert_at_ne by apply dir_ne_child.
  unfold stat in Hdir.
  rewrite bool_decide_eq_false_2 in Hdir by apply fileDir_not_root.
  rewrite Hdir.
  fold (children (insert_at pos (fileDir ++ [name], File true content) fs) fileDir).
  rewrite children_insert_at, child_name_snoc. cbn [app].
  rewrite (find_app_first _ _ _ name); last first.
  { exact Hstarts. }
  { intros other Hin. apply Hfresh. rewrite (children_take_drop fs pos).
    apply elem_of_app. by left. }
  assert (Hsend : sendFile (insert_at pos (fileDir ++ [name], File true content) fs)
                    (path_join fileDir name) = Sent content).
  { rewrite path_join_plain by done. unfold sendFile, readFileSync.
    rewrite stat_child. by rewrite fs_lookup_insert_at_eq. }
  destruct name as [|c0 rest]; [|done]. by destruct Hplain as (_ & ? & _).
Qed.

(** X7: an uploaded file stays as it was uploaded.
    Start with the two stores empty and readable. After any requests, an
    upload under a UUID not drawn before whose stored name the file
    system accepts (at most 255 bytes, no NUL byte), and any further
    requests that do not draw that UUID, [GET /file/:fileId] with it
    sends exactly the bytes that were uploaded. *)
Theorem uploaded_file_stays (fs0 : fsys) (before after : list request)
    (uuid : string) (pos : nat) (originalname : string) (content : bytes) :
  stores_ready fs0 →
  children fs0 fileDir = [] →
  children fs0 canvasDir = [] →
  Forall (λ req, ∀ v, generated req = Some v → is_uuid v = true) (before ++ after) →
  is_uuid uuid = true →
  uuid ∉ omap generated (before ++ after) →
  valid_name (storage_filename uuid originalname) = true →
  get_file
    (run fs0 (before ++ Upload uuid pos (Some (originalname, content)) :: after))
    uuid
  = Sent content.
Proof.
  intros Hready Hf0 Hc0 Hall Hu Hnot Hvalid. apply Forall_app in Hall as [Hall1 Hall2].
  rewrite omap_app, elem_of_app in Hnot.
  destruct (run_from_empty fs0 before Hready Hf0 Hc0 Hall1) as [Hr Hn].
  set (fs1 := run fs0 before) in *.
  assert (Hfresh : ∀ other, other ∈ children fs1 fileDir → startsWith other uuid = false).
  { intros other Hin. destruct Hn as [Hf _].
    destruct (Hf other Hin) as (w & Hw & Hwu & name & ->).
    apply stored_name_other; [done..|]. intros ->. apply Hnot. by left. }
  destruct (post_upload_fresh fs1 uuid pos originalname content Hu (proj1 Hr) Hfresh
              Hvalid) as [Hnew Hup].
  set (upload := Upload uuid pos (Some (originalname, content))).
  assert (Hstep : ∀ v, generated upload = Some v →
                       is_uuid v = true ∧ v ∈ uuid :: omap generated before).
  { intros v [= <-]. split; [done|left]. }
  destruct (handle_names_from (uuid :: omap generated before) fs1 upload Hr) as [Hr2 Hn2].
  { eapply names_from_mono; [|done]. intros x Hx. by right. }
  { done. }
  rewrite run_app. fold fs1. change (run fs1 (upload :: after))
    with (run (handle fs1 upload).1 after).
  destruct (run_keeps_lookups after uuid _ _ Hr2 Hn2 Hu Hall2) as [-> _].
  { intros Hin. apply Hnot. by right. }
  change (handle fs1 upload)
    with (post_upload fs1 uuid pos (Some (originalname, content))).
  rewrite Hup. cbn [fst].
  apply get_file_fresh_entry; [apply Hr| |apply startsWith_app|done..].
  by apply storage_filename_plain.
Qed.

(** X5: the names and the identifiers of the stored entries.
    Start with the two stores empty and readable and serve any requests in
    which every identifier drawn is a UUID and no identifier is drawn
    twice. Then every entry of the file directory is named by an
    identifier that was drawn followed by the extension of an original
    name, every entry of the canvas directory by such an identifier
    followed by [.json], and no two entries of a store have the same
    identifier. *)
Theorem stores_named_and_distinct (fs0 : fsys) (reqs : list request) :
  stores_ready fs0 →
  children fs0 fileDir = [] →
  children fs0 canvasDir = [] →
  Forall (λ req, ∀ u, generated req = Some u → is_uuid u = true) reqs →
  NoDup (omap generated reqs) →
  names_from (omap generated reqs) (run fs0 reqs)
  ∧ distinct_identifiers (run fs0 reqs).
Proof.
  intros Hready Hf0 Hc0 Hall Hnd.
  destruct (run_distinct reqs [] fs0) as (_ & Hn & Hd); [done| | |done| |].
  - split; intros name Hin; [rewrite Hf0 in Hin|rewrite Hc0 in Hin];
      by apply elem_of_nil in Hin.
  - unfold distinct_identifiers. rewrite Hf0, Hc0. split; constructor.
  - by rewrite app_nil_r.
  - rewrite app_nil_r in Hn. done.
Qed.

(** ** What the listing returns *)

Lemma sort_insert_perm (x : json) (sorted l : list json) :
  sort_insert x sorted = Some l → l ≡ₚ x :: sorted.
Proof.
  revert l. induction sorted as [|y rest IH]; intros l; simpl.
  - by intros [= <-].
  - destruct (compareFn x y) as [v|]; [|done].
    destruct (0 <? v)%float; [|by intros [= <-]].
    destruct (sort_insert x rest) as [l'|]; [|done]. intros [= <-].
    rewrite (IH l' eq_refl). apply perm_swap.
Qed.

Lemma sort_perm (canvases sorted : list json) :
  sort canvases = Some sorted → sorted ≡ₚ canvases.
Proof.
  revert sorted. induction canvases as [|x rest IH]; intros sorted; simpl.
  - by intros [= <-].
  - destruct (sort rest) as [l|]; [|done]. intros H.
    rewrite (sort_insert_perm _ _ _ H). by rewrite (IH l eq_refl).
Qed.

(** X8: the listing returns every canvas once.
    When the canvas directory can be read and [GET /canvas] answers 200,
    every [.json] entry of the directory was read and parsed, the body is
    the list of the canvases read, each one once, in some order, and the
    file system is as it was. *)
Theorem get_canvas_lists_all (fs fs' : fsys) (names : list string) (body : json) :
  readdir fs canvasDir = Some names →
  get_canvas fs = (fs', Json 200 body) →
  fs' = fs
  ∧ ∃ canvases sorted,
      mapM (read_canvas fs) (filter (λ file, endsWith file ".json" = true) names)
        = Some canvases
      ∧ body = JArr sorted
      ∧ sorted ≡ₚ canvases.
Proof.
  intros Hdir H. unfold get_canvas in H.
  rewrite (readdir_existsSync _ _ _ Hdir), Hdir in H. simpl in H.
  destruct (mapM _ _) as [canvases|] eqn:Hread; [|done].
  destruct (sort canvases) as [sorted|] eqn:Hsort; [|done].
  injection H as <- <-. split; [done|].
  exists canvases, sorted. split; [done|]. split; [done|]. by apply sort_perm.
Qed.

Lemma compareFn_null_l (b : json) : compareFn JNull b = None.
Proof. unfold compareFn. by destruct (get_createDate b). Qed.

Lemma compareFn_null_r (a : json) : compareFn a JNull = None.
Proof. done. Qed.

(** A sort of two canvases or more that meets [null] throws. *)
Lemma sort_null (canvases : list json) :
  JNull ∈ canvases → 2 ≤ length canvases → sort canvases = None.
Proof.
  induction canvases as [|x rest IH]; intros Hin Hlen; [by apply elem_of_nil in Hin|].
  apply elem_of_cons in Hin as [<-|Hin].
  - simpl. destruct (sort rest) as [sorted|] eqn:Hsort; [|done].
    apply sort_perm in Hsort. destruct sorted as [|y sorted].
    + apply Permutation_nil_l in Hsort. subst rest. simpl in Hlen. lia.
    + simpl. by rewrite compareFn_null_l.
  - destruct rest as [|y [|z rest]].
    + by apply elem_of_nil in Hin.
    + apply list_elem_of_singleton in Hin as <-.
      change (sort [x; JNull]) with (sort_insert x [JNull]).
      unfold sort_insert. by rewrite compareFn_null_r.
    + change (sort (x :: y :: z :: rest))
        with (match sort (y :: z :: rest) with
              | Some sorted => sort_insert x sorted
              | None => None
              end).
      rewrite IH; [done..|]. simpl. lia.
Qed.

(** X9: a canvas file that holds [null] fails the listing of two
    canvases or more.
    When the canvas directory can be read, its [.json] entries all parse,
    there are at least two of them and one of them parses to [null],
    [GET /canvas] answers 500 and changes nothing. *)
Theorem get_canvas_null_entry (fs : fsys) (names : list string)
    (canvases : list json) :
  readdir fs canvasDir = Some names →
  mapM (read_canvas fs) (filter (λ file, endsWith file ".json" = true) names)
    = Some canvases →
  JNull ∈ canvases →
  2 ≤ length canvases →
  get_canvas fs = (fs, Failure 500).
Proof.
  intros Hdir Hread Hnull Hlen. unfold get_canvas.
  rewrite (readdir_existsSync _ _ _ Hdir), Hdir. simpl.
  by rewrite Hread, sort_null.
Qed.

Lemma ends_with_json_plain (file : string) :
  "/"%char ∉ chars file → endsWith file ".json" = true → plain file.
Proof.
  intros Hsep Hend. split; [done|].
  repeat split; intros ->; by vm_compute in Hend.
Qed.

(** X11: the listing ignores the entries that are not named [*.json].
    Take a readable canvas directory whose names have no separator, and
    add to it an entry, file or directory, whose name does not end with
    [.json]. [GET /canvas] answers the same before and after. *)
Theorem get_canvas_ignores_other_names (fs : fsys) (pos : nat) (name : string)
    (entry : node) :
  stat fs canvasDir = Some (Dir true) →
  Forall (λ file, "/"%char ∉ chars file) (children fs canvasDir) →
  endsWith name ".json" = false →
  (get_canvas (insert_at pos (canvasDir ++ [name], entry) fs)).2
    = (get_canvas fs).2.
Proof.
  intros Hdir Hnames Hname.
  set (fs' := insert_at pos (canvasDir ++ [name], entry) fs).
  assert (Hdir' : stat fs' canvasDir = Some (Dir true)).
  { unfold stat in *.
    rewrite bool_decide_eq_false_2 in * by apply canvasDir_not_root.
    unfold fs'. by rewrite fs_lookup_insert_at_ne by apply dir_ne_child. }
  unfold get_canvas, existsSync, readdir. rewrite Hdir, Hdir'. simpl.
  fold (children fs' canvasDir). fold (children fs canvasDir).
  assert (Hfilter :
    filter (λ file, endsWith file ".json" = true) (children fs' canvasDir)
    = filter (λ file, endsWith file ".json" = true) (children fs canvasDir)).
  { unfold fs'. rewrite children_insert_at, child_name_snoc.
    rewrite (children_take_drop fs pos canvasDir), !filter_app.
    f_equal. cbn [app]. rewrite filter_cons_False; [done|]. by rewrite Hname. }
  rewrite Hfilter.
  assert (Hread :
    mapM (read_canvas fs')
      (filter (λ file, endsWith file ".json" = true) (children fs canvasDir))
    = mapM (read_canvas fs)
        (filter (λ file, endsWith file ".json" = true) (children fs canvasDir))).
  { apply Forall_mapM_ext. apply Forall_forall. intros file Hin.
    apply list_elem_of_filter in Hin as [Hjson Hin].
    rewrite Forall_forall in Hnames.
    pose proof (ends_with_json_plain file (Hnames file Hin) Hjson) as Hplain.
    unfold read_canvas, readFileSync. rewrite path_join_plain by done.
    rewrite !stat_child. unfold fs'. rewrite fs_lookup_insert_at_ne; [done|].
    intros Heq. apply app_inj_tail in Heq as [_ ->]. by rewrite Hname in Hjson. }
  rewrite Hread. by repeat case_match.
Qed.

(** ** What was created is there *)

(** A creation under a fresh identifier adds one entry to the canvas
    directory, at the place the operating system gives it. *)
Lemma post_canvas_fresh (ids : list string) (fs : fsys) (canvasId now : string)
    (pos : nat) (canvasData : json) :
  stores_ready fs → names_from ids fs →
  is_uuid canvasId = true → canvasId ∉ ids →
  fs_lookup fs (canvasDir ++ [canvasId +:+ ".json"]) = None
  ∧ post_canvas fs canvasId now pos canvasData
    = (insert_at pos (canvasDir ++ [canvasId +:+ ".json"],
                      File true (JSON_stringify (newCanvas canvasId canvasData now))) fs,
       Json 201 (newCanvas canvasId canvasData now)).
Proof.
  intros [_ Hcd] [_ Hc] Hu Hfresh.
  assert (Hnew : fs_lookup fs (canvasDir ++ [canvasId +:+ ".json"]) = None).
  { apply fs_lookup_not_child. intros Hin.
    destruct (Hc _ Hin) as (u & Hin' & _ & Heq).
    apply app_inv_suffix in Heq. by subst u. }
  split; [done|]. unfold post_canvas.
  rewrite path_join_plain by by apply json_name_plain.
  unfold writeFile.
  rewrite valid_path_snoc, valid_name_json, stat_child, Hnew, removelast_snoc by done.
  unfold is_dir. by rewrite Hcd.
Qed.

Lemma get_canvas_id_entry (fs : fsys) (canvasId : string) (canvas : json)
    (fileData : bytes) :
  is_uuid canvasId = true →
  fs_lookup fs (canvasDir ++ [canvasId +:+ ".json"]) = Some (File true fileData) →
  JSON_parse fileData = Some canvas →
  get_canvas_id fs canvasId = Json 200 canvas.
Proof.
  intros Hu Hl Hp. unfold get_canvas_id, existsSync, readFileSync.
  rewrite path_join_plain by by apply json_name_plain.
  by rewrite stat_child, Hl, Hp.
Qed.

(** X14: a created canvas stays as it was created.
    Start with the two stores empty and readable. After any requests, a
    creation under a UUID not drawn before, and any further requests
    that do not draw that UUID, [GET /canvas/:id] with the generated
    identifier answers 200 with the canvas that was created, provided the
    text written for it parses back to it. *)
Theorem created_canvas_stays (fs0 : fsys) (before after : list request)
    (canvasId now : string) (pos : nat) (canvasData : json) :
  stores_ready fs0 →
  children fs0 fileDir = [] →
  children fs0 canvasDir = [] →
  Forall (λ req, ∀ v, generated req = Some v → is_uuid v = true) (before ++ after) →
  is_uuid canvasId = true →
  canvasId ∉ omap generated (before ++ after) →
  JSON_parse (JSON_stringify (newCanvas canvasId canvasData now))
    = Some (newCanvas canvasId canvasData now) →
  get_canvas_id
    (run fs0 (before ++ Create canvasId now pos canvasData :: after))
    canvasId
  = Json 200 (newCanvas canvasId canvasData now).
Proof.
  intros Hready Hf0 Hc0 Hall Hu Hnot Hrt. apply Forall_app in Hall as [Hall1 Hall2].
  rewrite omap_app, elem_of_app in Hnot.
  destruct (run_from_empty fs0 before Hready Hf0 Hc0 Hall1) as [Hr Hn].
  set (fs1 := run fs0 before) in *.
  destruct (post_canvas_fresh _ fs1 canvasId now pos canvasData Hr Hn Hu)
    as [Hnew Hcreate].
  { intros Hin. apply Hnot. by left. }
  set (create := Create canvasId now pos canvasData).
  assert (Hstep : ∀ v, generated create = Some v →
                       is_uuid v = true ∧ v ∈ canvasId :: omap generated before).
  { intros v [= <-]. split; [done|left]. }
  destruct (handle_names_from (canvasId :: omap generated before) fs1 create Hr)
    as [Hr2 Hn2].
  { eapply names_from_mono; [|done]. intros x Hx. by right. }
  { done. }
  rewrite run_app. fold fs1. change (run fs1 (create :: after))
    with (run (handle fs1 create).1 after).
  destruct (run_keeps_lookups after canvasId _ _ Hr2 Hn2 Hu Hall2) as [_ ->].
  { intros Hin. apply Hnot. by right. }
  change (handle fs1 create) with (post_canvas fs1 canvasId now pos canvasData).
  rewrite Hcreate. cbn [fst].
  eapply get_canvas_id_entry; [done| |done].
  by apply fs_lookup_insert_at_eq.
Qed.

Lemma filter_all {A} (P : A → Prop) `{∀ x, Decision (P x)} (l : list A) :
  Forall P l → filter P l = l.
Proof.
  induction 1 as [|x l Hx _ IH]; [done|].
  by rewrite filter_cons_True, IH.
Qed.

Lemma mapM_app_Some {A B} (f : A → option B) (l1 l2 : list A) (k1 k2 : list B) :
  mapM f l1 = Some k1 → mapM f l2 = Some k2 → mapM f (l1 ++ l2) = Some (k1 ++ k2).
Proof. rewrite !mapM_Some. apply Forall2_app. Qed.

Lemma mapM_app_inv {A B} (f : A → option B) (l1 l2 : list A) (k : list B) :
  mapM f (l1 ++ l2) = Some k →
  ∃ k1 k2, k = k1 ++ k2 ∧ mapM f l1 = Some k1 ∧ mapM f l2 = Some k2.
Proof.
  rewrite mapM_Some. intros H.
  apply Forall2_app_inv_l in H as (k1 & k2 & H1 & H2 & ->).
  exists k1, k2. by rewrite !mapM_Some.
Qed.

(** Reading a canvas looks at the entry of that name only. *)
Lemma read_canvas_same (ids : list string) (fs fs' : fsys) (file : string) :
  names_from ids fs → file ∈ children fs canvasDir →
  stat fs' (canvasDir ++ [file]) = stat fs (canvasDir ++ [file]) →
  read_canvas fs' file = read_canvas fs file.
Proof.
  intros [_ Hc] Hin Hs. destruct (Hc file Hin) as (u & _ & Hu & ->).
  unfold read_canvas, readFileSync.
  rewrite path_join_plain by by apply json_name_plain. by rewrite Hs.
Qed.

(** Serving a request that draws an identifier not used before adds the
    canvas it creates, if any, to the canvases the directory holds. *)
Lemma handle_stored_canvases (ids : list string) (fs : fsys) (req : request)
    (canvases : list json) :
  stores_ready fs → names_from ids fs →
  mapM (read_canvas fs) (children fs canvasDir) = Some canvases →
  (∀ v, generated req = Some v → is_uuid v = true ∧ v ∉ ids) →
  (∀ c, created req = Some c → JSON_parse (JSON_stringify c) = Some c) →
  ∃ canvases',
    mapM (read_canvas (handle fs req).1) (children (handle fs req).1 canvasDir)
      = Some canvases'
    ∧ canvases' ≡ₚ match created req with
                    | Some c => c :: canvases
                    | None => canvases
                    end.
Proof.
  intros Hr Hn Hread Hgen Hrt.
  destruct req as [uuid pos [[originalname content]|]|fileId|canvasId now pos d| |id];
    simpl; try (by exists canvases).
  - destruct (Hgen uuid eq_refl) as [Hu _].
    pose proof (storage_filename_plain uuid originalname Hu) as Hplain.
    rewrite path_join_plain by done.
    destruct (writeFile _ _ _ _) as [fs'|] eqn:Hw; simpl; [|by exists canvases].
    exists canvases. split; [|done].
    assert (Hch : children fs' canvasDir = children fs canvasDir).
    { destruct (writeFile_children_cases _ _ _ _ canvasDir _ Hw)
        as [->|(name & l1 & l2 & Hp & _)]; [done|].
      by apply store_children_differ in Hp. }
    rewrite Hch, <- Hread. apply Forall_mapM_ext, Forall_forall. intros file Hin.
    apply (read_canvas_same ids); [done..|].
    apply (writeFile_stat_ne _ _ _ _ _ _ Hw). intros Heq. symmetry in Heq.
    by apply store_children_differ in Heq.
  - destruct (Hgen canvasId eq_refl) as [Hu Hfresh].
    destruct (post_canvas_fresh ids fs canvasId now pos d Hr Hn Hu Hfresh)
      as [Hnew ->]. cbn [fst].
    set (nc := newCanvas canvasId d now) in *.
    match goal with |- context [read_canvas ?f] => set (fs' := f) end.
    assert (Hold : ∀ file, file ∈ children fs canvasDir →
                           read_canvas fs' file = read_canvas fs file).
    { intros file Hin. apply (read_canvas_same ids); [done..|].
      rewrite !stat_child. unfold fs'. apply fs_lookup_insert_at_ne.
      intros Heq. apply app_inj_tail in Heq as [_ ->].
      apply elem_of_children in Hin as [n Hin].
      by apply (fs_lookup_None_elem _ _ n) in Hnew. }
    unfold fs' at 2. rewrite children_insert_at, child_name_snoc. cbn [app].
    rewrite (children_take_drop fs pos canvasDir) in Hread, Hold.
    apply mapM_app_inv in Hread as (k1 & k2 & -> & H1 & H2).
    exists (k1 ++ nc :: k2). split; [|by rewrite Permutation_middle].
    apply mapM_app_Some.
    + rewrite <- H1. apply Forall_mapM_ext, Forall_forall. intros file Hin.
      apply Hold, elem_of_app. by left.
    + change (mapM (read_canvas fs') ((canvasId +:+ ".json") :: children (drop pos fs) canvasDir))
        with (x ← read_canvas fs' (canvasId +:+ ".json");
              k ← mapM (read_canvas fs') (children (drop pos fs) canvasDir);
              Some (x :: k)).
      assert (read_canvas fs' (canvasId +:+ ".json") = Some nc) as ->.
      { unfold read_canvas, readFileSync.
        rewrite path_join_plain by by apply json_name_plain.
        rewrite stat_child. unfold fs'. rewrite fs_lookup_insert_at_eq by done.
        apply Hrt. done. }
      simpl.
      assert (mapM (read_canvas fs') (children (drop pos fs) canvasDir) = Some k2) as ->.
      { rewrite <- H2. apply Forall_mapM_ext, Forall_forall. intros file Hin.
        apply Hold, elem_of_app. by right. }
      done.
  - exists canvases. rewrite get_canvas_fs; [done|].
    unfold existsSync. by rewrite (proj2 Hr).
Qed.

Lemma run_stored_canvases (reqs : list request) :
  ∀ ids fs canvases,
    stores_ready fs → names_from ids fs →
    mapM (read_canvas fs) (children fs canvasDir) = Some canvases →
    Forall (λ req, ∀ v, generated req = Some v → is_uuid v = true) reqs →
    NoDup (omap generated reqs ++ ids) →
    Forall (λ req, ∀ c, created req = Some c →
                        JSON_parse (JSON_stringify c) = Some c) reqs →
    stores_ready (run fs reqs)
    ∧ names_from (omap generated reqs ++ ids) (run fs reqs)
    ∧ ∃ canvases',
        mapM (read_canvas (run fs reqs)) (children (run fs reqs) canvasDir)
          = Some canvases'
        ∧ canvases' ≡ₚ omap created reqs ++ canvases.
Proof.
  induction reqs as [|req reqs IH]; intros ids fs canvases Hr Hn Hread Hall Hnd Hrt.
  { split; [done|]. split; [done|]. by exists canvases. }
  inversion Hall as [|?? Hreq Hrest]; subst.
  inversion Hrt as [|?? Hrt1 Hrt2]; subst.
  assert (Hfresh : ∀ u, generated req = Some u → is_uuid u = true ∧ u ∉ ids).
  { intros u Hu. split; [by apply Hreq|]. csimpl in Hnd. rewrite Hu in Hnd.
    simpl in Hnd. apply NoDup_cons in Hnd as [Hnot _]. intros Hin. apply Hnot.
    apply elem_of_app. by right. }
  set (ids' := match generated req with Some v => v :: ids | None => ids end).
  assert (Hsub : ids ⊆ ids').
  { unfold ids'. destruct (generated req); [|done]. intros x Hx. by right. }
  assert (Hstep : ∀ v, generated req = Some v → is_uuid v = true ∧ v ∈ ids').
  { intros v Hv. split; [by apply Hreq|]. unfold ids'. rewrite Hv. left. }
  destruct (handle_names_from ids' fs req Hr (names_from_mono _ _ _ Hsub Hn) Hstep)
    as [Hr' Hn'].
  destruct (handle_stored_canvases ids fs req canvases Hr Hn Hread Hfresh Hrt1)
    as (canvases1 & Hread1 & Hperm1).
  assert (Hperm : omap generated (req :: reqs) ++ ids ≡ₚ omap generated reqs ++ ids').
  { csimpl. unfold ids'. destruct (generated req); [|done]. simpl.
    apply Permutation_middle. }
  destruct (IH ids' (handle fs req).1 canvases1 Hr' Hn' Hread1 Hrest) as (Hr2 & Hn2 & Hc2);
    [by rewrite <- Hperm|done|].
  destruct Hc2 as (canvases2 & Hread2 & Hperm2).
  simpl. split; [done|]. split.
  { eapply names_from_mono; [|done]. intros x Hx. by rewrite Hperm. }
  exists canvases2. split; [done|]. rewrite Hperm2, Hperm1. csimpl.
  destruct (created req); [|done]. simpl. by rewrite Permutation_middle.
Qed.

(** X15: the listing returns what was created.
    Start with the two stores empty and readable and serve any requests in
    which every identifier drawn is a UUID, no identifier is drawn twice,
    and every canvas created has no [createDate] and is written as a text
    that parses back to it. Then [GET /canvas] answers 200 with the
    canvases created, each one once, in some order, and changes nothing. *)
Theorem get_canvas_after_creations (fs0 : fsys) (reqs : list request) :
  stores_ready fs0 →
  children fs0 fileDir = [] →
  children fs0 canvasDir = [] →
  Forall (λ req, ∀ u, generated req = Some u → is_uuid u = true) reqs →
  NoDup (omap generated reqs) →
  Forall (λ req, ∀ c, created req = Some c →
                      JSON_parse (JSON_stringify c) = Some c
                      ∧ get_createDate c = Some None) reqs →
  ∃ listed,
    get_canvas (run fs0 reqs) = (run fs0 reqs, Json 200 (JArr listed))
    ∧ listed ≡ₚ omap created reqs.
Proof.
  intros Hready Hf0 Hc0 Hall Hnd Hcreated.
  destruct (run_stored_canvases reqs [] fs0 []) as (Hr & Hn & listed & Hread & Hperm);
    [done| |by rewrite Hc0|done|by rewrite app_nil_r| |].
  - split; intros name Hin; [rewrite Hf0 in Hin|rewrite Hc0 in Hin];
      by apply elem_of_nil in Hin.
  - eapply Forall_impl; [exact Hcreated|]. intros req H c Hc. by apply H.
  - rewrite app_nil_r in Hperm. exists listed. split; [|done].
    unfold get_canvas, existsSync, readdir. rewrite (proj2 Hr). simpl.
    fold (children (run fs0 reqs) canvasDir).
    rewrite filter_all; last first.
    { apply Forall_forall. intros file Hin. destruct Hn as [_ Hc].
      destruct (Hc file Hin) as (u & _ & _ & ->). apply endsWith_app. }
    rewrite Hread, sort_unkeyed; [done|].
    rewrite Hperm. apply Forall_forall. intros c Hc.
    apply list_elem_of_omap in Hc as (req & Hreq & Hc).
    rewrite Forall_forall in Hcreated. by apply (Hcreated req Hreq c).
Qed.

End Server.

(** ** The theorems on the demo deployment *)

(** C5, the claim as stated fails: with an original name whose extension
    has 220 bytes the stored name would have 256, the file system refuses
    it, the upload fails without an identifier and nothing is stored. *)
Lemma long_name_upload_fails :
  length (chars (storage_filename Demo.uuid1 Demo.long_name)) = 256
  ∧ valid_name (storage_filename Demo.uuid1 Demo.long_name) = false
  ∧ post_upload Demo.dirname Demo.fs0 Demo.uuid1 0 (Some (Demo.long_name, Demo.three_bytes))
    = (Demo.fs0, Unhandled)
  ∧ returned_fileId Unhandled = None
  ∧ get_file Demo.dirname Demo.fs0 Demo.uuid1 = Failure 404.
Proof. vm_compute. repeat split; done. Qed.

Lemma upload_then_get_file_witness :
  ∃ fs' resp,
    post_upload Demo.dirname Demo.fs0 Demo.uuid1 0 (Some ("photo.jpg", Demo.three_bytes))
      = (fs', resp)
    ∧ status_of resp = Some 200
    ∧ returned_fileId resp = Some Demo.uuid1
    ∧ get_file Demo.dirname fs' Demo.uuid1 = Sent Demo.three_bytes.
Proof.
  apply (upload_then_get_file Demo.dirname Demo.fs0 Demo.uuid1 0 "photo.jpg"
           Demo.three_bytes).
  - reflexivity.
  - reflexivity.
  - intros name H. vm_compute in H. inversion H.
  - reflexivity.
Defined.

(** A name with a NUL byte in its extension is refused as well. *)
Example nul_name_upload_fails :
  post_upload Demo.dirname Demo.fs0 Demo.uuid1 0
    (Some (String "a" (String "." (String "000" "b")), Demo.three_bytes))
  = (Demo.fs0, Unhandled).
Proof. vm_compute. reflexivity. Qed.

(** The longest extension that is still stored: 219 bytes, for a stored
    name of 255. *)
Example fitting_name_uploads :
  length (chars (storage_filename Demo.uuid1 Demo.fitting_name)) = 255
  ∧ get_file Demo.dirname
      (post_upload Demo.dirname Demo.fs0 Demo.uuid1 0
         (Some (Demo.fitting_name, Demo.three_bytes))).1
      Demo.uuid1
    = Sent Demo.three_bytes.
Proof. vm_compute. split; reflexivity. Qed.

(** The upload of the specification's scenario, run. *)
Example upload_photo :
  post_upload Demo.dirname Demo.fs0 Demo.uuid1 0 (Some ("photo.jpg", Demo.three_bytes))
    = (Demo.fs_photo, Json 200 (upload_body Demo.uuid1))
  ∧ String.length Demo.uuid1 = 36
  ∧ get_file Demo.dirname Demo.fs_photo Demo.uuid1 = Sent Demo.three_bytes.
Proof. vm_compute. done. Qed.

(** C6, the claim as stated fails: a name whose only dot is its first
    character is stored under the identifier alone, although its
    substring from the last dot is the whole name. *)
Lemma hidden_file_stored_without_extension :
  spec_extension ".bashrc" = ".bashrc"
  ∧ storage_filename Demo.uuid1 ".bashrc" = Demo.uuid1
  ∧ storage_filename Demo.uuid1 ".bashrc" ≠ Demo.uuid1 +:+ spec_extension ".bashrc"
  ∧ (post_upload Demo.dirname Demo.fs0 Demo.uuid1 0 (Some (".bashrc", "x"))).1
    = (Demo.file_dir ++ [Demo.uuid1], File true "x") :: Demo.fs0.
Proof. vm_compute. repeat split; done. Qed.

Lemma storage_filename_extension_witness :
  ("/"%char ∉ chars "photo.jpg")
  ∧ storage_filename Demo.uuid1 "photo.jpg" = Demo.uuid1 +:+ ".jpg".
Proof.
  assert (H : "/"%char ∉ chars "photo.jpg").
  { apply (bool_decide_unpack _). vm_compute. exact I. }
  split; [exact H|].
  exact (storage_filename_extension Demo.uuid1 "photo.jpg" H).
Defined.



(** The same run, asked for identifiers that could have been drawn and
    were not: one that no request drew, and for [GET /canvas/:id] also
    the one the upload drew. *)
Example undrawn_identifiers_not_found :
  let reqs := [ Upload Demo.uuid1 0 (Some ("photo.jpg", Demo.three_bytes));
                Create Demo.uuid2 Demo.t1 0 (Demo.sketch "first") ] in
  let fs := run MiniJSON.parse MiniJSON.stringify MiniJSON.coerce Demo.dirname
              Demo.fs0 reqs in
  get_file Demo.dirname fs Demo.uuid3 = Failure 404
  ∧ get_file Demo.dirname fs Demo.uuid2 = Failure 404
  ∧ get_canvas_id MiniJSON.parse Demo.dirname fs Demo.uuid3 = Failure 404
  ∧ get_canvas_id MiniJSON.parse Demo.dirname fs Demo.uuid1 = Failure 404.
Proof. vm_compute. repeat split; reflexivity. Qed.

Lemma get_canvas_keeps_directory_order_witness :
  run MiniJSON.parse MiniJSON.stringify MiniJSON.coerce Demo.dirname Demo.fs0
    [ Create Demo.uuid1 Demo.t1 5 (Demo.sketch "first");
      Create Demo.uuid2 Demo.t2 6 (Demo.sketch "second");
      Create Demo.uuid3 Demo.t3 7 (Demo.sketch "third") ]
    = Demo.fs_three
  ∧ get_canvas MiniJSON.parse MiniJSON.coerce Demo.dirname Demo.fs_three
    = (Demo.fs_three, Json 200 (JArr [Demo.canvas1; Demo.canvas2; Demo.canvas3])).
Proof.
  split; [vm_compute; reflexivity|].
  apply (get_canvas_keeps_directory_order MiniJSON.parse MiniJSON.coerce Demo.dirname
           Demo.fs_three
           [Demo.uuid1 +:+ ".json"; Demo.uuid2 +:+ ".json"; Demo.uuid3 +:+ ".json"]).
  - vm_compute. reflexivity.
  - vm_compute. reflexivity.
  - repeat constructor.
Defined.

Lemma get_canvas_malformed_entry_witness :
  get_canvas MiniJSON.parse MiniJSON.coerce Demo.dirname Demo.fs_broken
    = (Demo.fs_broken, Failure 500).
Proof.
  apply (get_canvas_malformed_entry MiniJSON.parse MiniJSON.coerce Demo.dirname
           Demo.fs_broken [Demo.uuid1 +:+ ".json"; Demo.uuid2 +:+ ".json"]
           (Demo.uuid2 +:+ ".json") "{oops").
  - vm_compute. reflexivity.
  - apply (bool_decide_unpack _). vm_compute. exact I.
  - vm_compute. reflexivity.
  - vm_compute. reflexivity.
  - vm_compute. reflexivity.
Defined.

(** The entry of [Demo.fs_broken] that parses is read without trouble:
    the failure above is the malformed entry's alone. *)
Example broken_other_entry_parses :
  read_canvas MiniJSON.parse Demo.dirname Demo.fs_broken (Demo.uuid1 +:+ ".json")
    = Some Demo.canvas1.
Proof. vm_compute. reflexivity. Qed.

Lemma get_canvas_absent_or_empty_witness :
  (∃ fs', get_canvas MiniJSON.parse MiniJSON.coerce Demo.dirname Demo.fs_bare
            = (fs', Json 200 (JArr []))
          ∧ stat fs' (canvasDir Demo.dirname) = Some (Dir true)
          ∧ ∀ p, p ≠ canvasDir Demo.dirname → stat fs' p = stat Demo.fs_bare p)
  ∧ get_canvas MiniJSON.parse MiniJSON.coerce Demo.dirname Demo.fs0
    = (Demo.fs0, Json 200 (JArr [])).
Proof.
  apply (get_canvas_absent_or_empty MiniJSON.parse MiniJSON.coerce Demo.dirname
           Demo.fs_bare Demo.fs0); reflexivity.
Defined.

Lemma post_canvas_caller_id_witness :
  Demo.canvas_mine = JObj {[ "id" := JStr "mine"; "createAt" := JStr Demo.t1 ]}
  ∧ ∃ r, stat Demo.fs_mine
           (path_join (canvasDir Demo.dirname) (Demo.uuid1 +:+ ".json"))
         = Some (File r (MiniJSON.stringify Demo.canvas_mine)).
Proof.
  apply (post_canvas_caller_id MiniJSON.stringify Demo.dirname Demo.fs0 Demo.fs_mine
           Demo.uuid1 Demo.t1 "mine" 5 Demo.canvas_mine).
  vm_compute. reflexivity.
Defined.

Lemma stored_canvas_id_mismatch_witness :
  (Demo.uuid1 +:+ ".json") ∈ children Demo.fs_mine (canvasDir Demo.dirname)
  ∧ ∃ r fileData canvas,
      stat Demo.fs_mine (canvasDir Demo.dirname ++ [Demo.uuid1 +:+ ".json"])
        = Some (File r fileData)
      ∧ MiniJSON.parse fileData = Some canvas
      ∧ own_props canvas !! "id" = Some (JStr "mine")
      ∧ own_props canvas !! "id" ≠ Some (JStr Demo.uuid1).
Proof.
  apply (stored_canvas_id_mismatch MiniJSON.parse MiniJSON.stringify Demo.dirname
           Demo.fs0 Demo.fs_mine Demo.uuid1 Demo.t1 "mine" 5 Demo.canvas_mine).
  - reflexivity.
  - intros H. discriminate H.
  - vm_compute. reflexivity.
  - vm_compute. reflexivity.
Defined.

Lemma get_canvas_id_after_caller_id_witness :
  own_props Demo.canvas_mine !! "id" = Some (JStr "mine")
  ∧ get_canvas_id MiniJSON.parse Demo.dirname Demo.fs_mine "mine" = Failure 404.
Proof.
  apply (get_canvas_id_after_caller_id MiniJSON.parse MiniJSON.stringify Demo.dirname
           Demo.fs0 Demo.fs_mine Demo.uuid1 Demo.t1 "mine" 5 Demo.canvas_mine).
  - vm_compute. reflexivity.
  - intros H. vm_compute in H. discriminate H.
  - reflexivity.
Defined.

(** The creation of the specification's scenario, run: the canvas
    returned is the one [GET /canvas/:id] returns. *)
Example create_sketch :
  post_canvas MiniJSON.stringify Demo.dirname Demo.fs0 Demo.uuid1 Demo.t1 5
    (Demo.sketch "first")
    = (Demo.fs0 ++ [(Demo.canvas_dir ++ [Demo.uuid1 +:+ ".json"],
                     File true (MiniJSON.stringify Demo.canvas1))],
       Json 201 Demo.canvas1)
  ∧ get_canvas_id MiniJSON.parse Demo.dirname
      (Demo.fs0 ++ [(Demo.canvas_dir ++ [Demo.uuid1 +:+ ".json"],
                     File true (MiniJSON.stringify Demo.canvas1))])
      Demo.uuid1
    = Json 200 Demo.canvas1
  ∧ get_canvas_id MiniJSON.parse Demo.dirname Demo.fs0 "does-not-exist" = Failure 404.
Proof. vm_compute. done. Qed.

Lemma get_canvas_id_unvalidated_witness :
  (∀ fs1 id,
     get_canvas_id MiniJSON.parse Demo.dirname fs1 id =
       match stat fs1 (path_join (canvasDir Demo.dirname) (id +:+ ".json")) with
       | None => Failure 404
       | Some (File true fileData) =>
           match MiniJSON.parse fileData with
           | Some c => Json 200 c
           | None => Failure 500
           end
       | Some _ => Failure 500
       end)
  ∧ let fs' := (post_upload Demo.dirname Demo.fs0 Demo.uuid1 0
                  (Some ("data.json", "{}"))).1 in
    let id := "../file/" +:+ Demo.uuid1 in
    path_join (canvasDir Demo.dirname) (id +:+ ".json")
      = fileDir Demo.dirname ++ [Demo.uuid1 +:+ ".json"]
    ∧ ¬ canvasDir Demo.dirname `prefix_of`
          path_join (canvasDir Demo.dirname) (id +:+ ".json")
    ∧ children fs' (canvasDir Demo.dirname) = children Demo.fs0 (canvasDir Demo.dirname)
    ∧ get_canvas_id MiniJSON.parse Demo.dirname fs' id = Json 200 (JObj ∅).
Proof.
  apply (get_canvas_id_unvalidated MiniJSON.parse Demo.dirname Demo.fs0 Demo.uuid1 0
           "{}" (JObj ∅)).
  - reflexivity.
  - reflexivity.
  - intros name H. vm_compute in H. inversion H.
  - reflexivity.
Defined.

(** The two directories the application creates when it starts. *)
Example startup_creates_stores :
  startup Demo.dirname Demo.fs_bare = Some Demo.fs0
  ∧ startup Demo.dirname Demo.fs0 = Some Demo.fs0
  ∧ stores_ready Demo.dirname Demo.fs0.
Proof. vm_compute. done. Qed.

(** ** Further properties on the demo deployment *)

Lemma post_upload_effect_witness :
  plain (storage_filename Demo.uuid1 "../../etc/passwd.txt")
  ∧ ((Json 200 (upload_body Demo.uuid1) = Unhandled
      ∧ (Demo.file_dir ++ [Demo.uuid1 +:+ ".txt"], File true "x") :: Demo.fs0 = Demo.fs0)
     ∨ (Json 200 (upload_body Demo.uuid1) = Json 200 (upload_body Demo.uuid1)
        ∧ (∃ r, stat ((Demo.file_dir ++ [Demo.uuid1 +:+ ".txt"], File true "x") :: Demo.fs0)
                  (fileDir Demo.dirname
                   ++ [storage_filename Demo.uuid1 "../../etc/passwd.txt"])
                = Some (File r "x"))
        ∧ ∀ p, p ≠ fileDir Demo.dirname
                   ++ [storage_filename Demo.uuid1 "../../etc/passwd.txt"] →
               stat ((Demo.file_dir ++ [Demo.uuid1 +:+ ".txt"], File true "x") :: Demo.fs0) p
               = stat Demo.fs0 p)).
Proof.
  apply (post_upload_effect Demo.dirname Demo.fs0 _ Demo.uuid1 0
           "../../etc/passwd.txt" "x").
  - reflexivity.
  - vm_compute. reflexivity.
Defined.

Lemma post_canvas_effect_witness :
  (Json 201 Demo.canvas1 = Failure 500
   ∧ Demo.fs0 ++ [(Demo.canvas_dir ++ [Demo.uuid1 +:+ ".json"],
                   File true (MiniJSON.stringify Demo.canvas1))] = Demo.fs0)
  ∨ (Json 201 Demo.canvas1
       = Json 201 (newCanvas Demo.uuid1 (Demo.sketch "first") Demo.t1)
     ∧ (∃ r, stat (Demo.fs0 ++ [(Demo.canvas_dir ++ [Demo.uuid1 +:+ ".json"],
                                 File true (MiniJSON.stringify Demo.canvas1))])
               (canvasDir Demo.dirname ++ [Demo.uuid1 +:+ ".json"])
             = Some (File r (MiniJSON.stringify
                               (newCanvas Demo.uuid1 (Demo.sketch "first") Demo.t1))))
     ∧ ∀ p, p ≠ canvasDir Demo.dirname ++ [Demo.uuid1 +:+ ".json"] →
            stat (Demo.fs0 ++ [(Demo.canvas_dir ++ [Demo.uuid1 +:+ ".json"],
                                File true (MiniJSON.stringify Demo.canvas1))]) p
            = stat Demo.fs0 p).
Proof.
  apply (post_canvas_effect MiniJSON.stringify Demo.dirname Demo.fs0 _ Demo.uuid1
           Demo.t1 5 (Demo.sketch "first")).
  - reflexivity.
  - vm_compute. reflexivity.
Defined.

Lemma create_then_get_by_id_witness :
  ∃ fs' body,
    post_canvas MiniJSON.stringify Demo.dirname Demo.fs0 Demo.uuid1 Demo.t1 5
      (Demo.sketch "first") = (fs', Json 201 body)
    ∧ own_props body !! "id" = Some (JStr Demo.uuid1)
    ∧ own_props body !! "createAt" = Some (JStr Demo.t1)
    ∧ (∀ k, k ≠ "createAt" → is_Some (own_props (Demo.sketch "first") !! k) →
            own_props body !! k = own_props (Demo.sketch "first") !! k)
    ∧ get_canvas_id MiniJSON.parse Demo.dirname fs' Demo.uuid1 = Json 200 body.
Proof.
  apply (create_then_get_by_id MiniJSON.parse MiniJSON.stringify Demo.dirname
           Demo.fs0 Demo.uuid1 Demo.t1 5 (Demo.sketch "first")).
  - reflexivity.
  - reflexivity.
  - reflexivity.
  - reflexivity.
  - vm_compute. reflexivity.
Defined.

Lemma stores_named_and_distinct_witness :
  let reqs := [ Upload Demo.uuid1 0 (Some ("photo.jpg", Demo.three_bytes));
                Create Demo.uuid2 Demo.t1 0 (Demo.sketch "first");
                ListAll;
                Upload Demo.uuid3 1 (Some (".bashrc", "x"));
                Create Demo.uuid4 Demo.t2 9 (Demo.sketch "second") ] in
  let fs := run MiniJSON.parse MiniJSON.stringify MiniJSON.coerce Demo.dirname
              Demo.fs0 reqs in
  names_from Demo.dirname (omap generated reqs) fs
  ∧ distinct_identifiers Demo.dirname fs.
Proof.
  apply (stores_named_and_distinct MiniJSON.parse MiniJSON.stringify MiniJSON.coerce
           Demo.dirname Demo.fs0).
  - split; reflexivity.
  - reflexivity.
  - reflexivity.
  - repeat constructor; intros u H; try discriminate H; injection H as <-; reflexivity.
  - apply (bool_decide_unpack _). vm_compute. exact I.
Defined.

Lemma later_requests_keep_lookups_witness :
  let reqs := [ Upload Demo.uuid1 0 (Some ("photo.jpg", Demo.three_bytes));
                Create Demo.uuid2 Demo.t1 0 (Demo.sketch "first") ] in
  let later := [ Upload Demo.uuid3 0 (Some ("other.jpg", "x"));
                 ListAll;
                 Create Demo.uuid4 Demo.t2 0 (Demo.sketch "second") ] in
  let serve := run MiniJSON.parse MiniJSON.stringify MiniJSON.coerce Demo.dirname
                 Demo.fs0 in
  get_file Demo.dirname (serve (reqs ++ later)) Demo.uuid1
    = get_file Demo.dirname (serve reqs) Demo.uuid1
  ∧ get_canvas_id MiniJSON.parse Demo.dirname (serve (reqs ++ later)) Demo.uuid1
    = get_canvas_id MiniJSON.parse Demo.dirname (serve reqs) Demo.uuid1.
Proof.
  apply (later_requests_keep_lookups MiniJSON.parse MiniJSON.stringify MiniJSON.coerce
           Demo.dirname Demo.fs0).
  - split; reflexivity.
  - reflexivity.
  - reflexivity.
  - repeat constructor; intros u H; try discriminate H; injection H as <-; reflexivity.
  - reflexivity.
  - apply (bool_decide_unpack _). vm_compute. exact I.
Defined.

Lemma uploaded_file_stays_witness :
  get_file Demo.dirname
    (run MiniJSON.parse MiniJSON.stringify MiniJSON.coerce Demo.dirname Demo.fs0
       ([ Create Demo.uuid2 Demo.t1 0 (Demo.sketch "first") ]
        ++ Upload Demo.uuid1 0 (Some ("photo.jpg", Demo.three_bytes))
        :: [ Upload Demo.uuid3 0 (Some ("other.jpg", "x")); ListAll ]))
    Demo.uuid1
  = Sent Demo.three_bytes.
Proof.
  apply (uploaded_file_stays MiniJSON.parse MiniJSON.stringify MiniJSON.coerce
           Demo.dirname Demo.fs0).
  - split; reflexivity.
  - reflexivity.
  - reflexivity.
  - repeat constructor; intros u H; try discriminate H; injection H as <-; reflexivity.
  - reflexivity.
  - apply (bool_decide_unpack _). vm_compute. exact I.
  - reflexivity.
Defined.

Lemma get_canvas_lists_all_witness :
  Demo.fs_three = Demo.fs_three
  ∧ ∃ canvases sorted,
      mapM (read_canvas MiniJSON.parse Demo.dirname Demo.fs_three)
        (filter (λ file, endsWith file ".json" = true)
           [Demo.uuid1 +:+ ".json"; Demo.uuid2 +:+ ".json"; Demo.uuid3 +:+ ".json"])
        = Some canvases
      ∧ JArr [Demo.canvas1; Demo.canvas2; Demo.canvas3] = JArr sorted
      ∧ sorted ≡ₚ canvases.
Proof.
  apply (get_canvas_lists_all MiniJSON.parse MiniJSON.coerce Demo.dirname
           Demo.fs_three Demo.fs_three).
  - vm_compute. reflexivity.
  - vm_compute. reflexivity.
Defined.

Lemma get_canvas_null_entry_witness :
  get_canvas MiniJSON.parse MiniJSON.coerce Demo.dirname Demo.fs_null
    = (Demo.fs_null, Failure 500).
Proof.
  apply (get_canvas_null_entry MiniJSON.parse MiniJSON.coerce Demo.dirname
           Demo.fs_null [Demo.uuid1 +:+ ".json"; Demo.uuid2 +:+ ".json"]
           [Demo.canvas1; JNull]).
  - vm_compute. reflexivity.
  - vm_compute. reflexivity.
  - right. left.
  - simpl. lia.
Defined.

Lemma get_canvas_ignores_other_names_witness :
  (get_canvas MiniJSON.parse MiniJSON.coerce Demo.dirname
     (insert_at 6 (canvasDir Demo.dirname ++ ["notes.txt"], File true "{oops")
        Demo.fs_three)).2
  = (get_canvas MiniJSON.parse MiniJSON.coerce Demo.dirname Demo.fs_three).2.
Proof.
  apply (get_canvas_ignores_other_names MiniJSON.parse MiniJSON.coerce Demo.dirname
           Demo.fs_three 6 "notes.txt" (File true "{oops")).
  - reflexivity.
  - repeat constructor; apply (bool_decide_unpack _); vm_compute; exact I.
  - reflexivity.
Defined.

(** The text file is enumerated among the canvases and is not JSON, and
    the listing is still the three canvases. *)
Example listing_with_notes :
  readdir Demo.fs_three_notes (canvasDir Demo.dirname)
    = Some [Demo.uuid1 +:+ ".json"; "notes.txt"; Demo.uuid2 +:+ ".json";
            Demo.uuid3 +:+ ".json"]
  ∧ MiniJSON.parse "{oops" = None
  ∧ get_canvas MiniJSON.parse MiniJSON.coerce Demo.dirname Demo.fs_three_notes
    = (Demo.fs_three_notes, Json 200 (JArr [Demo.canvas1; Demo.canvas2; Demo.canvas3])).
Proof. vm_compute. done. Qed.

Lemma get_file_stays_in_store_witness :
  ∃ before name after,
    [Demo.uuid1 +:+ ".jpg"] = before ++ name :: after
    ∧ Forall (λ other, startsWith other "1b9d" = false) before
    ∧ startsWith name "1b9d" = true
    ∧ stat Demo.fs_photo (fileDir Demo.dirname ++ [name])
      = Some (File true Demo.three_bytes).
Proof.
  apply (get_file_stays_in_store Demo.dirname Demo.fs_photo
           [Demo.uuid1 +:+ ".jpg"] "1b9d" Demo.three_bytes).
  - reflexivity.
  - repeat constructor; try (intros H; discriminate H).
    apply (bool_decide_unpack _). vm_compute. exact I.
  - reflexivity.
Defined.

(** With a name that leads out of the directory nothing is found: the
    identifier is compared with the names, it is not joined to the path. *)
Example get_file_no_traversal :
  get_file Demo.dirname Demo.fs_mine ("../canvas/" +:+ Demo.uuid1) = Failure 404.
Proof. vm_compute. reflexivity. Qed.

Lemma startup_ready_witness :
  ∃ fs',
    startup Demo.dirname Demo.fs_bare = Some fs'
    ∧ existsSync fs' (fileDir Demo.dirname) = true
    ∧ existsSync fs' (canvasDir Demo.dirname) = true
    ∧ (existsSync Demo.fs_bare (fileDir Demo.dirname) = false →
       stat fs' (fileDir Demo.dirname) = Some (Dir true))
    ∧ (existsSync Demo.fs_bare (canvasDir Demo.dirname) = false →
       stat fs' (canvasDir Demo.dirname) = Some (Dir true))
    ∧ (∀ p n, stat Demo.fs_bare p = Some n → stat fs' p = Some n)
    ∧ startup Demo.dirname fs' = Some fs'.
Proof.
  apply (startup_ready Demo.dirname Demo.fs_bare). reflexivity.
Defined.

Lemma created_canvas_stays_witness :
  get_canvas_id MiniJSON.parse Demo.dirname
    (run MiniJSON.parse MiniJSON.stringify MiniJSON.coerce Demo.dirname Demo.fs0
       ([ Upload Demo.uuid2 0 (Some ("photo.jpg", Demo.three_bytes)) ]
        ++ Create Demo.uuid1 Demo.t1 0 (Demo.sketch "first")
        :: [ Create Demo.uuid3 Demo.t2 0 (Demo.sketch "second"); ListAll ]))
    Demo.uuid1
  = Json 200 (newCanvas Demo.uuid1 (Demo.sketch "first") Demo.t1).
Proof.
  apply (created_canvas_stays MiniJSON.parse MiniJSON.stringify MiniJSON.coerce
           Demo.dirname Demo.fs0).
  - split; reflexivity.
  - reflexivity.
  - reflexivity.
  - repeat constructor; intros u H; try discriminate H; injection H as <-; reflexivity.
  - reflexivity.
  - apply (bool_decide_unpack _). vm_compute. exact I.
  - vm_compute. reflexivity.
Defined.

Lemma get_canvas_after_creations_witness :
  let reqs := [ Create Demo.uuid1 Demo.t1 0 (Demo.sketch "first");
                Upload Demo.uuid4 0 (Some ("photo.jpg", Demo.three_bytes));
                Create Demo.uuid2 Demo.t2 0 (Demo.sketch "second");
                Create Demo.uuid3 Demo.t3 1 (Demo.sketch "third") ] in
  let fs := run MiniJSON.parse MiniJSON.stringify MiniJSON.coerce Demo.dirname
              Demo.fs0 reqs in
  ∃ listed,
    get_canvas MiniJSON.parse MiniJSON.coerce Demo.dirname fs
      = (fs, Json 200 (JArr listed))
    ∧ listed ≡ₚ omap created reqs.
Proof.
  apply (get_canvas_after_creations MiniJSON.parse MiniJSON.stringify MiniJSON.coerce
           Demo.dirname Demo.fs0).
  - split; reflexivity.
  - reflexivity.
  - reflexivity.
  - repeat constructor; intros u H; try discriminate H; injection H as <-; reflexivity.
  - apply (bool_decide_unpack _). vm_compute. exact I.
  - repeat (apply List.Forall_cons;
            [intros c H; try discriminate H; injection H as <-;
             split; vm_compute; reflexivity|]).
    apply List.Forall_nil.
Defined.
